(** * LinkStash: link capture, session store and formatter

    A shallow embedding of [background.js] (capture coordinator, link
    extractor, session store) and of [sidebar.js] (formatter, delete
    action), followed by the properties of the specification that were
    checked against them.

    JavaScript strings are sequences of UTF-16 code units; they are modelled
    as lists of code units, so that [String.prototype.trim], [===] and
    template literals are list operations.  The session storage area of the
    browser is a finite map from keys to stored values. *)

From Stdlib Require Import ZArith NArith Ascii String.
From stdpp Require Import gmap list strings pretty.

Local Open Scope Z_scope.

(** ** JavaScript strings *)

Definition code_unit : Type := N.
Definition jsstring : Type := list code_unit.

(** A string literal of the source, as a list of code units. *)
Definition js (s : string) : jsstring :=
  N_of_ascii <$> list_ascii_of_string s.

(** [x === y] on two strings. *)
Definition str_eqb (x y : jsstring) : bool := bool_decide (x = y).

(** The truth value of a string in a condition: only [""] is falsy. *)
Definition truthy (s : jsstring) : bool :=
  match s with
  | [] => false
  | _ :: _ => true
  end.

(** ECMAScript [WhiteSpace] and [LineTerminator] code points, the ones
    [String.prototype.trim] removes.  All of them are in the Basic
    Multilingual Plane, so each is a single code unit. *)
Definition isWhiteSpace (c : code_unit) : bool :=
  ((c =? 9) || (c =? 10) || (c =? 11) || (c =? 12) || (c =? 13) ||
   (c =? 32) || (c =? 160) || (c =? 5760) ||
   ((8192 <=? c) && (c <=? 8202)) ||
   (c =? 8232) || (c =? 8233) || (c =? 8239) || (c =? 8287) ||
   (c =? 12288) || (c =? 65279))%N.

Fixpoint trimStart (s : jsstring) : jsstring :=
  match s with
  | [] => []
  | c :: s' => if isWhiteSpace c then trimStart s' else s
  end.

Definition trimEnd (s : jsstring) : jsstring :=
  reverse (trimStart (reverse s)).

(** [s.trim()] *)
Definition trim (s : jsstring) : jsstring := trimEnd (trimStart s).

(** [s.startsWith(p)], also the meaning of a match against [/^p/] for a
    literal [p]. *)
Fixpoint startsWith (p s : jsstring) : bool :=
  match p, s with
  | [], _ => true
  | _ :: _, [] => false
  | a :: p', b :: s' => (a =? b)%N && startsWith p' s'
  end.

(** The string literal ["\n"]. *)
Definition newline : jsstring := js (String "010" EmptyString).

(** [xs.join(sep)] on an array of strings. *)
Fixpoint join (sep : jsstring) (xs : list jsstring) : jsstring :=
  match xs with
  | [] => []
  | [x] => x
  | x :: xs' => x ++ sep ++ join sep xs'
  end.

(** [s.split(c)] for a separator of one code unit. *)
Fixpoint split_on (c : code_unit) (s : jsstring) : list jsstring :=
  match s with
  | [] => [[]]
  | a :: s' =>
      if (a =? c)%N then [] :: split_on c s'
      else
        match split_on c s' with
        | first :: others => (a :: first) :: others
        | [] => [[a]]
        end
  end.

(** [xs.splice(start, deleteCount)] for integer arguments, as the array it
    leaves behind: a negative [start] counts from the end, and both the
    start and the count are clamped to the array. *)
Definition splice {A : Type} (xs : list A) (start deleteCount : Z) : list A :=
  let len := Z.of_nat (length xs) in
  let actualStart :=
    if start <? 0 then Z.max (len + start) 0 else Z.min start len in
  let actualDeleteCount := Z.min (Z.max deleteCount 0) (len - actualStart) in
  take (Z.to_nat actualStart) xs
  ++ drop (Z.to_nat (actualStart + actualDeleteCount)) xs.

(** ** Links *)

Record Link : Type := mkLink { title : jsstring; url : jsstring }.

#[global] Instance Link_eq_dec : EqDecision Link.
Proof. solve_decision. Defined.

(** ** Formatter (sidebar.js) *)

(** [formatLink(link, asMarkdown)] *)
Definition formatLink (link : Link) (asMarkdown : bool) : jsstring :=
  if asMarkdown
  then js "[" ++ title link ++ js "](" ++ url link ++ js ")"
  else url link.

(** [formatAllPlain(links, asMarkdown)] *)
Definition formatAllPlain (links : list Link) (asMarkdown : bool) : jsstring :=
  join newline ((λ link, formatLink link asMarkdown) <$> links).

(** [formatAllBulleted(links, asMarkdown)] *)
Definition formatAllBulleted (links : list Link) (asMarkdown : bool) : jsstring :=
  join newline ((λ link, js "- " ++ formatLink link asMarkdown) <$> links).

(** ** The browser platform

    [new URL(s)], the CSS selector engine and the way a script injected into
    a page reports an exception are the browser's, not the extension's.
    They are parameters of the development: every theorem below holds for
    every browser that satisfies the laws stated here. *)

(** The two properties of a parsed [URL] object that the extension reads. *)
Record URL : Type := mkURL { protocol : jsstring; hostname : jsstring }.

(** The result of a computation that may throw. *)
Inductive outcome (A : Type) : Type :=
  | Ret (a : A)
  | Throw.
Arguments Ret {A} a.
Arguments Throw {A}.

(** An [<a>] element of the page: the raw [href] attribute (if any), the
    [href] property (the attribute resolved against the document's base
    URL, [""] without the attribute), its text content, and whether the
    pointer is over it. *)
Record Anchor : Type := mkAnchor {
  attr_href : option jsstring;
  href : jsstring;
  textContent : jsstring;
  hover : bool
}.

(** What the injected function can see of a page: its anchors in document
    order and the text of the current selection ([None] when
    [window.getSelection()] is null). *)
Record Page : Type := mkPage {
  anchors : list Anchor;
  selection : option jsstring
}.

Class Browser : Type := {
  (** [new URL(s)]: [None] when the constructor throws. *)
  URL_parse : jsstring → option URL;
  (** The empty string is not an absolute URL. *)
  URL_parse_empty : URL_parse [] = None;
  (** [querySelectorAll] for [a[href="v"]] when [v] holds a code unit that
      the CSS tokenizer does not read literally inside a quoted string. *)
  query_href_escaped : list Anchor → jsstring → outcome (list Anchor);
  (** Whether [scripting.executeScript] rejects when the injected function
      throws ([true]), or resolves with a frame result that has no
      [result] ([false]). *)
  page_throw_rejects : bool
}.

(** ** Link extractor (background.js, [findLinkOnPage]) *)

(** The [info] object of a context-menu click, with the two properties the
    extractor reads; a property the browser did not set is [None]. *)
Record Info : Type := mkInfo {
  linkUrl : option jsstring;
  selectionText : option jsstring
}.

(** The capture contexts of the specification, as the [info] argument the
    listeners pass to [handleLinkCapture]. *)
Definition LinkClick (u : jsstring) : option Info :=
  Some {| linkUrl := Some u; selectionText := None |}.
Definition SelectionClick (s : jsstring) : option Info :=
  Some {| linkUrl := None; selectionText := Some s |}.
Definition ShortcutTrigger : option Info := None.

(** A possibly undefined string used as a condition: the string when it is
    defined and non-empty. *)
Definition whenTruthy (o : option jsstring) : option jsstring :=
  match o with
  | Some s => if truthy s then Some s else None
  | None => None
  end.

(** [hostname.replace(/^www\./, "")] *)
Definition strip_www (hostname : jsstring) : jsstring :=
  if startsWith (js "www.") hostname then drop 4 hostname else hostname.

(** [url.protocol === "http:" || url.protocol === "https:"] *)
Definition is_http (u : URL) : bool :=
  str_eqb (protocol u) (js "http:") || str_eqb (protocol u) (js "https:").

(** Code units that stand for themselves inside the double-quoted string of
    a CSS attribute selector: not NUL, a line break, a double quote, a
    backslash or a surrogate. *)
Definition cssLiteral (c : code_unit) : bool :=
  negb ((c =? 0) || (c =? 10) || (c =? 12) || (c =? 13) || (c =? 34) ||
        (c =? 92) || ((55296 <=? c) && (c <=? 57343)))%N.

Section Extractor.
Context `{Browser}.

(** [getDomain(url)] *)
Definition getDomain (url : jsstring) : jsstring :=
  match URL_parse url with
  | Some u => strip_www (hostname u)
  | None => js "Link"
  end.

(** [makeResult(title, url)]; a [null] title is [None]. *)
Definition makeResult (title : option jsstring) (url : jsstring) : Link :=
  let cleanTitle :=
    match whenTruthy (trim <$> title) with
    | Some t => t
    | None => getDomain url
    end in
  {| title := cleanTitle; url := url |}.

(** [document.querySelectorAll(`a[href="${v}"]`)]: the anchors whose raw
    [href] attribute is exactly [v], in document order. *)
Definition querySelectorAll_href (page : Page) (v : jsstring)
  : outcome (list Anchor) :=
  if forallb cssLiteral v
  then Ret (filter (λ a, attr_href a = Some v) (anchors page))
  else query_href_escaped (anchors page) v.

(** [document.querySelector("a:hover")] *)
Definition querySelector_hover (page : Page) : option Anchor :=
  head (filter (λ a, hover a = true) (anchors page)).

(** The loop of path 1: the trimmed text of the first link that has
    some. *)
Fixpoint firstText (links : list Anchor) : option jsstring :=
  match links with
  | [] => None
  | link :: rest =>
      let text := trim (textContent link) in
      if truthy text then Some text else firstText rest
  end.

(** The [try] block of paths 2 and 3 on a candidate text: a link when the
    text is an http(s) URL, [null] when [new URL] throws, and otherwise
    whatever follows the block ([rest]). *)
Definition tryUrlText (text : jsstring) (rest : option Link) : option Link :=
  match URL_parse text with
  | Some u => if is_http u then Some (makeResult None text) else rest
  | None => None
  end.

(** Path 3, entered only when [info] is null. *)
Definition fromShortcut (page : Page) : option Link :=
  let from_selection :=
    match whenTruthy (trim <$> selection page) with
    | Some sel => tryUrlText sel None
    | None => None
    end in
  match querySelector_hover page with
  | Some hovered =>
      if truthy (href hovered) then
        let text := trim (textContent hovered) in
        Some (makeResult (Some text) (href hovered))
      else from_selection
  | None => from_selection
  end.

(** [findLinkOnPage(info)], run inside [page]. *)
Definition findLinkOnPage (page : Page) (info : option Info)
  : outcome (option Link) :=
  match whenTruthy (info ≫= linkUrl) with
  | Some link_url =>
      (* Path 1: context menu on a link *)
      match querySelectorAll_href page link_url with
      | Ret links =>
          match firstText links with
          | Some text => Ret (Some (makeResult (Some text) link_url))
          | None => Ret (Some (makeResult None link_url))
          end
      | Throw => Throw
      end
  | None =>
      let path3 :=
        match info with
        | None => fromShortcut page
        | Some _ => None
        end in
      Ret match whenTruthy (info ≫= selectionText) with
          | Some selection_text =>
              (* Path 2: context menu on selected text *)
              tryUrlText (trim selection_text) path3
          | None => path3
          end
  end.

End Extractor.

(** ** The extension's world: session storage and observable effects *)

(** Storage key for the links array. *)
Definition STORAGE_KEY : jsstring := js "linkstash_links".

(** What the extension does to its surroundings besides storage: a script
    injection into a tab, a text placed on the clipboard, and a line on the
    error console. *)
Inductive Event : Type :=
  | ExecuteScript (tabId : Z)
  | ClipboardWrite (text : jsstring)
  | ConsoleError.

(** [chrome.storage.session] and the effects so far, oldest first.  Storage
    reads and writes themselves are taken to succeed. *)
Record World : Type := mkWorld {
  session : gmap jsstring (list Link);
  events : list Event
}.

(** An [async] function body: it reads and updates the world and either
    returns or throws; [await] is sequencing. *)
Definition Eff (A : Type) : Type := World → outcome A * World.

#[global] Instance Eff_ret : MRet Eff := λ A a w, (Ret a, w).
#[global] Instance Eff_bind : MBind Eff := λ A B k m w,
  match m w with
  | (Ret a, w') => k a w'
  | (Throw, w') => (Throw, w')
  end.

(** [try { body } catch { handler }] *)
Definition try_catch {A : Type} (body handler : Eff A) : Eff A := λ w,
  match body w with
  | (Ret a, w') => (Ret a, w')
  | (Throw, w') => handler w'
  end.

Definition log_event (e : Event) : Eff unit := λ w,
  (Ret (), {| session := session w; events := events w ++ [e] |}).

(** [chrome.storage.session.get(key)], as the value under [key] if any. *)
Definition storage_get (key : jsstring) : Eff (option (list Link)) := λ w,
  (Ret (session w !! key), w).

(** [chrome.storage.session.set({ [key]: value })] *)
Definition storage_set (key : jsstring) (value : list Link) : Eff unit := λ w,
  (Ret (), {| session := <[key := value]> (session w); events := events w |}).

(** The world an effectful computation leaves behind. *)
Definition exec {A : Type} (m : Eff A) (w : World) : World := (m w).2.

(** The Store's [list()]: the links array currently in storage. *)
Definition stored (w : World) : list Link :=
  default [] (session w !! STORAGE_KEY).

(** The world after the links array in storage is replaced by [links]. *)
Definition with_stored (links : list Link) (w : World) : World :=
  {| session := <[STORAGE_KEY := links]> (session w); events := events w |}.

(** ** Storage functions (background.js and sidebar.js) *)

(** [getStoredLinks()]; the same function in both files. *)
Definition getStoredLinks : Eff (list Link) :=
  result ← storage_get STORAGE_KEY;
  mret (default [] result).

(** [isDuplicate(links, url)] *)
Definition isDuplicate (links : list Link) (u : jsstring) : bool :=
  existsb (λ link, str_eqb (url link) u) links.

(** [saveLink(linkData)] *)
Definition saveLink (linkData : Link) : Eff unit :=
  links ← getStoredLinks;
  if isDuplicate links (url linkData) then mret ()
  else
    storage_set STORAGE_KEY
      (links ++ [{| title := title linkData; url := url linkData |}]).

(** [deleteLink(index)] of sidebar.js *)
Definition deleteLink (index : Z) : Eff unit :=
  links ← getStoredLinks;
  storage_set STORAGE_KEY (splice links index 1).

(** ** Copy actions (sidebar.js) *)

(** The system clipboard, as the panel's document reaches it:
    [writeText_resolves w text] tells whether
    [navigator.clipboard.writeText(text)], called in the world [w],
    resolves (the text is then on the clipboard) or rejects, as it does
    in a document without focus or without the permission. *)
Class Clipboard : Type := {
  writeText_resolves : World → jsstring → bool
}.

(** [navigator.clipboard.writeText(text)] *)
Definition clipboard_writeText `{Clipboard} (text : jsstring) : Eff unit := λ w,
  if writeText_resolves w text
  then (Ret (), exec (log_event (ClipboardWrite text)) w)
  else (Throw, w).

(** [copyToClipboard(text)] *)
Definition copyToClipboard `{Clipboard} (text : jsstring) : Eff unit :=
  try_catch (clipboard_writeText text) (log_event ConsoleError).

(** The click handler of the copy-plain button; [checked] is the state of
    the global Markdown checkbox. *)
Definition copyPlainBtn_click `{Clipboard} (checked : bool) : Eff unit :=
  links ← getStoredLinks;
  if (0 <? length links)%nat
  then copyToClipboard (formatAllPlain links checked)
  else mret ().

(** The click handler of the copy-bulleted button. *)
Definition copyBulletedBtn_click `{Clipboard} (checked : bool) : Eff unit :=
  links ← getStoredLinks;
  if (0 <? length links)%nat
  then copyToClipboard (formatAllBulleted links checked)
  else mret ().

(** ** Capture coordinator (background.js, [handleLinkCapture]) *)

Record Tab : Type := mkTab { tab_id : Z; tab_url : option jsstring }.

(** One entry of the array [scripting.executeScript] resolves to. *)
Record InjectionResult : Type := mkInjectionResult { result : option Link }.

(** [tab.url.match(/^https?:\/\//)] *)
Definition matches_http (s : jsstring) : bool :=
  startsWith (js "http://") s || startsWith (js "https://") s.

Section Coordinator.
Context `{Browser}.

(** [chrome.scripting.executeScript({target, func, args: [info]})].
    [access] is the page behind the tab when the browser lets the
    extension in, [None] when the injection is refused.  Only the main
    frame is targeted, so the array has one entry. *)
Definition executeScript (tabId : Z) (access : option Page)
    (func : Page → option Info → outcome (option Link))
    (info : option Info) : Eff (list InjectionResult) := λ w,
  let w' := exec (log_event (ExecuteScript tabId)) w in
  match access with
  | None => (Throw, w')
  | Some page =>
      match func page info with
      | Ret r => (Ret [{| result := r |}], w')
      | Throw =>
          if page_throw_rejects then (Throw, w')
          else (Ret [{| result := None |}], w')
      end
  end.

(** The end of the [try] block:
    [const linkData = results[0]?.result;
     if (linkData && linkData.url) await saveLink(linkData);] *)
Definition saveMainFrameResult (results : list InjectionResult) : Eff unit :=
  let linkData := head results ≫= result in
  match linkData with
  | Some link => if truthy (url link) then saveLink link else mret ()
  | None => mret ()
  end.

(** [handleLinkCapture(tab, info)] *)
Definition handleLinkCapture (tab : Tab) (info : option Info)
    (access : option Page) : Eff unit :=
  match whenTruthy (tab_url tab) with
  | Some tab_url_ =>
      if matches_http tab_url_ then
        try_catch
          (results ← executeScript (tab_id tab) access findLinkOnPage info;
           saveMainFrameResult results)
          (log_event ConsoleError)
      else mret ()
  | None => mret ()
  end.

(** A closed form of the world [handleLinkCapture] leaves once the
    injection into a web page is recorded ([w1]): an error is logged, or
    nothing more happens, or the extracted link goes to [saveLink].
    [handleLinkCapture_run] below proves it equal to the code. *)
Definition after_injection (info : option Info) (access : option Page)
    (w1 : World) : World :=
  match access with
  | None => exec (log_event ConsoleError) w1
  | Some page =>
      match findLinkOnPage page info with
      | Throw =>
          if page_throw_rejects then exec (log_event ConsoleError) w1
          else w1
      | Ret None => w1
      | Ret (Some link) =>
          if truthy (url link) then exec (saveLink link) w1 else w1
      end
  end.

(** A capture attempt: the tab, the capture context, and the page the
    injection reaches (if it does). *)
Record Capture : Type := mkCapture {
  c_tab : Tab;
  c_info : option Info;
  c_access : option Page
}.

Definition capture (c : Capture) : Eff unit :=
  handleLinkCapture (c_tab c) (c_info c) (c_access c).

(** A sequence of capture attempts, each run to completion before the
    next. *)
Definition captures (cs : list Capture) (w : World) : World :=
  foldl (λ w c, exec (capture c) w) w cs.

End Coordinator.

(** The world at session start: nothing stored, nothing done. *)
Definition session_start : World := {| session := ∅; events := [] |}.

(** ** Vocabulary of the properties *)

(** Every code unit of [s] is white space. *)
Definition blank (s : jsstring) : Prop :=
  Forall (λ c, isWhiteSpace c = true) s.

(** [s] begins with the literal [p]. *)
Definition begins_with (p : string) (s : jsstring) : Prop :=
  ∃ t, s = js p ++ t.

Section Provenance.
Context `{Browser}.

(** Where the url of a captured link [e] can come from, given the
    capture context and the page: it is the [linkUrl] of the menu click;
    or, on the shortcut, the [href] of the first hovered anchor; or the
    trimmed text of the selection (the [selectionText] of a menu click,
    the page's selection on the shortcut), when that parses as a URL with
    protocol [http:] or [https:]. *)
Definition extracted_from (page : Page) (info : option Info) (e : Link)
  : Prop :=
  url e ≠ []
  ∧ ((info ≫= linkUrl) = Some (url e)
     ∨ (info = None
        ∧ ∃ a, querySelector_hover page = Some a ∧ href a = url e)
     ∨ (∃ s u,
          match info with
          | Some i => selectionText i = Some s
          | None => selection page = Some s
          end
          ∧ url e = trim s
          ∧ URL_parse (url e) = Some u ∧ is_http u = true)).

(** [e] was captured by the attempt [c]: on a tab whose url begins with
    [http://] or [https://], from the page the injection reached. *)
Definition captured_by (c : Capture) (e : Link) : Prop :=
  (∃ u, tab_url (c_tab c) = Some u
        ∧ (begins_with "http://" u ∨ begins_with "https://" u))
  ∧ ∃ page, c_access c = Some page ∧ extracted_from page (c_info c) e.

End Provenance.

(** ** An example browser

    A small URL parser used to run the model on concrete inputs.  It
    accepts only [scheme://host] followed by nothing or by a path, query or
    fragment, where the scheme is made of lower-case letters (and is not
    [file]) and the host of lower-case letters and dots, starting with a
    letter; on those inputs [new URL] gives the same [protocol] and
    [hostname].  Outside that fragment it reports a failure, which
    [new URL] need not do: the examples consult it only inside the
    fragment or on texts without a scheme. *)

Definition isLower (c : code_unit) : bool := ((97 <=? c) && (c <=? 122))%N.

Definition isHostUnit (c : code_unit) : bool := isLower c || (c =? 46)%N.

Fixpoint span (p : code_unit → bool) (s : jsstring) : jsstring * jsstring :=
  match s with
  | [] => ([], [])
  | c :: s' =>
      if p c then let '(a, b) := span p s' in (c :: a, b) else ([], s)
  end.

Definition example_URL_parse (s : jsstring) : option URL :=
  let '(scheme, rest) := span isLower s in
  if truthy scheme && negb (str_eqb scheme (js "file"))
     && startsWith (js "://") rest
  then
    let '(host, tail) := span isHostUnit (drop 3 rest) in
    let starts_with_letter :=
      match host with c :: _ => isLower c | [] => false end in
    let ends_host :=
      match tail with
      | [] => true
      | c :: _ => ((c =? 47) || (c =? 63) || (c =? 35))%N
      end in
    if starts_with_letter && ends_host
    then Some {| protocol := scheme ++ js ":"; hostname := host |}
    else None
  else None.

(** The selector engine of the example browser, for values the CSS
    tokenizer does not read literally.  It is right on one kind of value:
    literal code units, a double quote, then two lower-case letters, as in
    the url [javascript:alert("hi")].  There the quote ends the selector's
    string and an identifier follows where only [i], [s] or the closing
    bracket may stand, so the selector is invalid and [querySelectorAll]
    throws.  On every other value it answers with no match, which a real
    engine need not do: the examples consult it only on the first kind. *)
Definition example_query_href_escaped (anchors : list Anchor) (v : jsstring)
  : outcome (list Anchor) :=
  let '(_, rest) := span cssLiteral v in
  match rest with
  | 34%N :: c1 :: c2 :: _ => if isLower c1 && isLower c2 then Throw else Ret []
  | _ => Ret []
  end.

(** The example browser reports an exception in the injected function as a
    failure of the injection. *)
#[global, refine] Instance example_browser : Browser := {|
  URL_parse := example_URL_parse;
  query_href_escaped := example_query_href_escaped;
  page_throw_rejects := true
|}.
Proof. reflexivity. Defined.

(** A clipboard that takes every text (a focused panel with the
    permission), and one that refuses every text (a panel without
    focus). *)
#[global] Instance example_clipboard : Clipboard :=
  {| writeText_resolves := λ _ _, true |}.

Definition refusing_clipboard : Clipboard :=
  {| writeText_resolves := λ _ _, false |}.

(** ** Event listeners (background.js) *)

Section Listeners.
Context `{Browser}.

(** The listener of [chrome.contextMenus.onClicked]; [menuItemId] is
    [info.menuItemId]. *)
Definition contextMenus_onClicked (menuItemId : jsstring) (info : Info)
    (tab : Tab) (access : option Page) : Eff unit :=
  if str_eqb menuItemId (js "save-to-linkstash")
  then handleLinkCapture tab (Some info) access
  else mret ().

(** The listener of [chrome.commands.onCommand]. *)
Definition commands_onCommand (command : jsstring) (tab : Tab)
    (access : option Page) : Eff unit :=
  if str_eqb command (js "save-link")
  then handleLinkCapture tab None access
  else mret ().

(** The link a capture attempt hands to [saveLink], if it gets that far: a
    closed form of the path through [handleLinkCapture], proved equal to
    the code in [capture_stored]. *)
Definition handed_to_saveLink (c : Capture) : option Link :=
  match whenTruthy (tab_url (c_tab c)), c_access c with
  | Some u, Some page =>
      if matches_http u then
        match findLinkOnPage page (c_info c) with
        | Ret (Some link) => if truthy (url link) then Some link else None
        | _ => None
        end
      else None
  | _, _ => None
  end.

End Listeners.

(** ** The panel (sidebar.js) *)

(** The [<li>] that [createLinkItem] builds: the attributes of its anchor,
    the state of its Markdown checkbox, and the [link] and [index] that
    the click handlers of its copy and delete buttons hold on to. *)
Record LinkItem : Type := mkLinkItem {
  anchor_href : jsstring;
  anchor_target : jsstring;
  anchor_rel : jsstring;
  anchor_textContent : jsstring;
  markdownCheckbox_checked : bool;
  copyBtn_link : Link;
  deleteBtn_index : Z
}.

(** [createLinkItem(link, index)] *)
Definition createLinkItem (link : Link) (index : Z) : LinkItem :=
  {| anchor_href := url link;
     anchor_target := js "_blank";
     anchor_rel := js "noopener noreferrer";
     anchor_textContent := title link;
     markdownCheckbox_checked := false;
     copyBtn_link := link;
     deleteBtn_index := index |}.

(** The part of the panel's document that [renderLinks] writes: the
    children of the links list and the [display] style of the empty-state
    element. *)
Record Panel : Type := mkPanel {
  linksList : list LinkItem;
  emptyState_display : jsstring
}.

(** [renderLinks(links)] on the panel as it stands. *)
Definition renderLinks (links : list Link) (panel : Panel) : Panel :=
  let cleared :=
    {| linksList := []; emptyState_display := emptyState_display panel |} in
  if (length links =? 0)%nat
  then {| linksList := linksList cleared; emptyState_display := js "block" |}
  else
    {| linksList :=
         linksList cleared
         ++ imap (λ index link, createLinkItem link (Z.of_nat index)) links;
       emptyState_display := js "none" |}.

(** The [DOMContentLoaded] listener. *)
Definition DOMContentLoaded (panel : Panel) : Eff Panel :=
  links ← getStoredLinks;
  mret (renderLinks links panel).

(** The click handler of an item's copy button. *)
Definition copyBtn_click `{Clipboard} (item : LinkItem) : Eff unit :=
  copyToClipboard (formatLink (copyBtn_link item) (markdownCheckbox_checked item)).

(** The click handler of an item's delete button. *)
Definition deleteBtn_click (item : LinkItem) : Eff unit :=
  deleteLink (deleteBtn_index item).

(** The text of the prompt of the delete-all button for [n] links. *)
Definition delete_all_prompt (n : nat) : jsstring :=
  js "Delete all " ++ js (pretty n) ++ js " links?".

(** The click handler of the delete-all button; [confirm] is the user's
    answer to a prompt. *)
Definition deleteAllBtn_click (confirm : jsstring → bool) : Eff unit :=
  links ← getStoredLinks;
  if (length links =? 0)%nat then mret ()
  else
    let confirmed := confirm (delete_all_prompt (length links)) in
    if confirmed then storage_set STORAGE_KEY [] else mret ().

(** The texts placed on the clipboard so far, oldest first. *)
Definition clipboard_writes (w : World) : list jsstring :=
  omap (λ e, match e with ClipboardWrite text => Some text | _ => None end)
    (events w).

(** What an attempt to copy [text], made in the world [w], leaves as
    [w']: the storage as it was and one more effect, the text on the
    clipboard when the write resolves and a line on the error console
    when it rejects. *)
Definition copy_attempt `{Clipboard} (text : jsstring) (w w' : World) : Prop :=
  session w' = session w
  ∧ events w'
    = events w
      ++ [if writeText_resolves w text then ClipboardWrite text
          else ConsoleError].

(** ** Two captures at once

    An [async] function gives way at each [await].  [saveLink] reads the
    list, gives way, and then works on the list it has read. *)

(** [saveLink(linkData)] from the point where [await getStoredLinks()] has
    returned [links]. *)
Definition saveLink_resume (links : list Link) (linkData : Link) : Eff unit :=
  if isDuplicate links (url linkData) then mret ()
  else
    storage_set STORAGE_KEY
      (links ++ [{| title := title linkData; url := url linkData |}]).

(** Two calls of [saveLink] that have both read the list before either
    goes on. *)
Definition saveLink_interleaved (x y : Link) : Eff unit :=
  links_x ← getStoredLinks;
  links_y ← getStoredLinks;
  saveLink_resume links_x x;;
  saveLink_resume links_y y.

(** ** User actions *)

(** What a user can do to the extension: use the context menu or a
    command on a tab, and press a button of the panel. *)
Inductive Action : Type :=
  | MenuClick (menuItemId : jsstring) (info : Info) (tab : Tab)
      (access : option Page)
  | Command (command : jsstring) (tab : Tab) (access : option Page)
  | ClickCopy (item : LinkItem)
  | ClickDelete (item : LinkItem)
  | ClickCopyPlain (checked : bool)
  | ClickCopyBulleted (checked : bool)
  | ClickDeleteAll (confirm : jsstring → bool).

(** The capture attempt an action starts, if it starts one. *)
Definition capture_of (a : Action) : option Capture :=
  match a with
  | MenuClick menuItemId info tab access =>
      if str_eqb menuItemId (js "save-to-linkstash")
      then Some {| c_tab := tab; c_info := Some info; c_access := access |}
      else None
  | Command command tab access =>
      if str_eqb command (js "save-link")
      then Some {| c_tab := tab; c_info := None; c_access := access |}
      else None
  | _ => None
  end.

Section Actions.
Context `{Browser} `{Clipboard}.

(** The handler an action runs. *)
Definition act (a : Action) : Eff unit :=
  match a with
  | MenuClick menuItemId info tab access =>
      contextMenus_onClicked menuItemId info tab access
  | Command command tab access => commands_onCommand command tab access
  | ClickCopy item => copyBtn_click item
  | ClickDelete item => deleteBtn_click item
  | ClickCopyPlain checked => copyPlainBtn_click checked
  | ClickCopyBulleted checked => copyBulletedBtn_click checked
  | ClickDeleteAll confirm => deleteAllBtn_click confirm
  end.

(** A sequence of actions, each handled to completion before the next. *)
Definition run (actions : list Action) (w : World) : World :=
  foldl (λ w a, exec (act a) w) w actions.

End Actions.

(** * Properties *)

(** ** Strings *)

Lemma trimStart_app_not_ws (s : jsstring) (c : code_unit) (t : jsstring) :
  isWhiteSpace c = false →
  trimStart (s ++ c :: t) = trimStart s ++ c :: t.
Proof.
  intros Hc. induction s as [|a s IH]; simpl.
  - by rewrite Hc.
  - destruct (isWhiteSpace a); [exact IH | reflexivity].
Qed.

Lemma trimStart_head (s : jsstring) :
  match trimStart s with
  | [] => True
  | c :: _ => isWhiteSpace c = false
  end.
Proof.
  induction s as [|a s IH]; simpl; [done|].
  destruct (isWhiteSpace a) eqn:Ha; [exact IH | exact Ha].
Qed.

Lemma trimStart_idem (s : jsstring) : trimStart (trimStart s) = trimStart s.
Proof.
  pose proof (trimStart_head s) as Hh.
  destruct (trimStart s) as [|c t]; [done|]. simpl. by rewrite Hh.
Qed.

(** Trimming the end keeps a first code unit that is not white space. *)
Lemma trimEnd_cons_not_ws (c : code_unit) (t : jsstring) :
  isWhiteSpace c = false → trimEnd (c :: t) = c :: trimEnd t.
Proof.
  intros Hc. unfold trimEnd. rewrite reverse_cons.
  replace (reverse t ++ [c]) with (reverse t ++ c :: []) by done.
  rewrite trimStart_app_not_ws by done.
  by rewrite reverse_app, reverse_singleton.
Qed.

Lemma trimEnd_head (s : jsstring) :
  match s with
  | [] => True
  | c :: _ => isWhiteSpace c = false
  end →
  trimStart (trimEnd s) = trimEnd s.
Proof.
  destruct s as [|c t]; [done|]. intros Hc.
  rewrite trimEnd_cons_not_ws by done. simpl. by rewrite Hc.
Qed.

Lemma trimEnd_idem (s : jsstring) : trimEnd (trimEnd s) = trimEnd s.
Proof.
  unfold trimEnd. rewrite reverse_involutive. by rewrite trimStart_idem.
Qed.

(** [s.trim().trim() === s.trim()] *)
Lemma trim_idem (s : jsstring) : trim (trim s) = trim s.
Proof.
  unfold trim. rewrite (trimEnd_head (trimStart s)) by apply trimStart_head.
  apply trimEnd_idem.
Qed.

Lemma startsWith_app (p s : jsstring) : startsWith p (p ++ s) = true.
Proof.
  induction p as [|a p IH]; simpl; [done|]. by rewrite N.eqb_refl.
Qed.

Lemma startsWith_spec (p s : jsstring) :
  startsWith p s = true ↔ ∃ t, s = p ++ t.
Proof.
  split.
  - revert s. induction p as [|a p IH]; intros s Hs; simpl in *.
    + by exists s.
    + destruct s as [|b s]; [done|].
      apply andb_true_iff in Hs as [Hab Hs]. apply N.eqb_eq in Hab as ->.
      destruct (IH _ Hs) as [t ->]. by exists t.
  - intros [t ->]. apply startsWith_app.
Qed.

Lemma str_eqb_eq (x y : jsstring) : str_eqb x y = true ↔ x = y.
Proof. unfold str_eqb. apply bool_decide_eq_true. Qed.

Lemma truthy_nonempty (s : jsstring) : truthy s = true ↔ s ≠ [].
Proof. by destruct s. Qed.

(** ** Formatter *)

Lemma join_cons_cons (sep x y : jsstring) (xs : list jsstring) :
  join sep (x :: y :: xs) = x ++ sep ++ join sep (y :: xs).
Proof. reflexivity. Qed.

(** C7. [formatLink] with Markdown is the title in brackets followed by
    the url in parentheses, both verbatim, and without Markdown it is the
    url; [formatAllPlain] is the links' [formatLink] outputs in list order
    with exactly one line feed (code unit 10) between consecutive outputs
    and none before the first or after the last, and [formatAllBulleted]
    is the same with ["- "] in front of each output. *)
Theorem C7_formatter (l : Link) (links : list Link) (m : bool) :
  formatLink l true = js "[" ++ title l ++ js "](" ++ url l ++ js ")"
  ∧ formatLink l false = url l
  ∧ formatAllPlain links m
    = join [10%N] ((λ x, formatLink x m) <$> links)
  ∧ formatAllBulleted links m
    = join [10%N] ((λ x, js "- " ++ formatLink x m) <$> links)
  ∧ (∀ x, formatAllPlain [x] m = formatLink x m)
  ∧ (∀ x y rest,
       formatAllPlain (x :: y :: rest) m
       = formatLink x m ++ 10%N :: formatAllPlain (y :: rest) m)
  ∧ (∀ x, formatAllBulleted [x] m = 45%N :: 32%N :: formatLink x m)
  ∧ (∀ x y rest,
       formatAllBulleted (x :: y :: rest) m
       = 45%N :: 32%N :: formatLink x m
         ++ 10%N :: formatAllBulleted (y :: rest) m)
  ∧ formatLink l true = 91%N :: title l ++ 93%N :: 40%N :: url l ++ [41%N].
Proof.
  split; [reflexivity|]. split; [reflexivity|].
  split; [reflexivity|]. split; [reflexivity|].
  split; [reflexivity|]. split.
  - intros x y rest. unfold formatAllPlain. rewrite !fmap_cons.
    apply join_cons_cons.
  - split; [reflexivity|]. split; [|reflexivity].
    intros x y rest. unfold formatAllBulleted. rewrite !fmap_cons.
    rewrite join_cons_cons. by rewrite <- !app_assoc.
Qed.

(** The examples of the specification. *)
Example formatLink_markdown_example :
  formatLink {| title := js "A"; url := js "https://x.com" |} true
  = js "[A](https://x.com)".
Proof. reflexivity. Qed.

Example formatLink_plain_example :
  formatLink {| title := js "A"; url := js "https://x.com" |} false
  = js "https://x.com".
Proof. reflexivity. Qed.

Example formatAllBulleted_example :
  formatAllBulleted
    [ {| title := js "A"; url := js "https://x.com" |};
      {| title := js "B"; url := js "https://y.com" |} ] false
  = js "- https://x.com" ++ newline ++ js "- https://y.com".
Proof. reflexivity. Qed.

(** Brackets in a title are copied as they are. *)
Example formatLink_no_escaping :
  formatLink {| title := js "a]b"; url := js "https://x.com" |} true
  = js "[a]b](https://x.com)".
Proof. reflexivity. Qed.

(** Splitting a joined text at the separator gives the parts back, when
    no part holds the separator: the outputs are on lines of their own, in
    list order. *)
Lemma split_on_app_sep (c : code_unit) (x rest : jsstring) :
  c ∉ x → split_on c (x ++ c :: rest) = x :: split_on c rest.
Proof.
  induction x as [|a x IH]; intros Hx; simpl.
  - by rewrite N.eqb_refl.
  - apply not_elem_of_cons in Hx as [Hne Hx].
    destruct (N.eqb_spec a c) as [->|_]; [done|].
    by rewrite IH.
Qed.

Lemma split_on_no_sep (c : code_unit) (x : jsstring) :
  c ∉ x → split_on c x = [x].
Proof.
  induction x as [|a x IH]; intros Hx; simpl; [done|].
  apply not_elem_of_cons in Hx as [Hne Hx].
  destruct (N.eqb_spec a c) as [->|_]; [done|].
  by rewrite IH.
Qed.

Lemma split_on_join (c : code_unit) (xs : list jsstring) :
  xs ≠ [] → Forall (λ x, c ∉ x) xs → split_on c (join [c] xs) = xs.
Proof.
  induction xs as [|x [|y xs] IH]; intros Hne Hall; [done | |].
  - simpl. apply split_on_no_sep. by inversion Hall.
  - rewrite join_cons_cons. inversion Hall as [|? ? Hx Hrest]; subst.
    change (x ++ [c] ++ join [c] (y :: xs))
      with (x ++ c :: join [c] (y :: xs)).
    rewrite split_on_app_sep by done. f_equal. by apply IH.
Qed.

Lemma formatAllPlain_lines (links : list Link) (m : bool) :
  links ≠ [] →
  Forall (λ link, 10%N ∉ formatLink link m) links →
  split_on 10%N (formatAllPlain links m) = (λ link, formatLink link m) <$> links.
Proof.
  intros Hne Hall. unfold formatAllPlain. apply split_on_join.
  - by destruct links.
  - by apply Forall_fmap.
Qed.

Lemma formatAllBulleted_lines (links : list Link) (m : bool) :
  links ≠ [] →
  Forall (λ link, 10%N ∉ formatLink link m) links →
  split_on 10%N (formatAllBulleted links m)
  = (λ link, js "- " ++ formatLink link m) <$> links.
Proof.
  intros Hne Hall. unfold formatAllBulleted. apply split_on_join.
  - by destruct links.
  - apply Forall_fmap. eapply Forall_impl; [exact Hall|].
    intros link Hl. simpl. rewrite !not_elem_of_cons. done.
Qed.

(** The number of code units of the bulk formats: every output, a
    separator between consecutive outputs, and two more per output for the
    bullets. *)
Lemma length_join (sep : jsstring) (xs : list jsstring) :
  length (join sep xs)
  = (sum_list (length <$> xs) + length sep * pred (length xs))%nat.
Proof.
  induction xs as [|x [|y xs] IH]; simpl in *; [lia | lia |].
  rewrite !length_app, IH. lia.
Qed.

Section EmptyCopy.
Context `{Clipboard}.

(** C9. On the empty list both bulk formats are the empty string, and the
    copy buttons write nothing to the clipboard when nothing is stored. *)
Theorem C9_format_empty (asMarkdown : bool) (w : World) :
  formatAllPlain [] asMarkdown = []
  ∧ formatAllBulleted [] asMarkdown = []
  ∧ (stored w = [] → copyPlainBtn_click asMarkdown w = (Ret (), w))
  ∧ (stored w = [] → copyBulletedBtn_click asMarkdown w = (Ret (), w)).
Proof.
  repeat split; intros Hw;
    unfold copyPlainBtn_click, copyBulletedBtn_click, getStoredLinks,
      storage_get, mbind, Eff_bind, mret, Eff_ret;
    fold (stored w); by rewrite Hw.
Qed.

End EmptyCopy.

(** At session start both copy buttons do nothing. *)
Lemma C9_format_empty_witness :
  formatAllBulleted [] true = []
  ∧ copyPlainBtn_click true session_start = (Ret (), session_start)
  ∧ copyBulletedBtn_click false session_start = (Ret (), session_start).
Proof.
  pose proof (C9_format_empty true session_start) as (_ & Hb & Hp & _).
  pose proof (C9_format_empty false session_start) as (_ & _ & _ & Hq).
  split; [exact Hb|]. split; [apply Hp | apply Hq]; reflexivity.
Defined.

(** With something stored the copy-bulleted button writes the bulleted
    format to the clipboard. *)
Example copyBulletedBtn_click_example :
  let w := with_stored [ {| title := js "A"; url := js "https://x.com" |} ]
             session_start in
  events (exec (copyBulletedBtn_click false) w)
  = [ClipboardWrite (js "- https://x.com")].
Proof. reflexivity. Qed.

(** ** Link store *)

Lemma stored_with_stored (links : list Link) (w : World) :
  stored (with_stored links w) = links.
Proof. unfold stored, with_stored. simpl. by rewrite lookup_insert_eq. Qed.

Lemma events_with_stored (links : list Link) (w : World) :
  events (with_stored links w) = events w.
Proof. reflexivity. Qed.

Lemma getStoredLinks_run (w : World) :
  getStoredLinks w = (Ret (stored w), w).
Proof. reflexivity. Qed.

Lemma saveLink_run (x : Link) (w : World) :
  saveLink x w
  = (Ret (),
     if isDuplicate (stored w) (url x) then w
     else with_stored (stored w ++ [x]) w).
Proof.
  unfold saveLink, mbind, Eff_bind. rewrite getStoredLinks_run.
  destruct (isDuplicate (stored w) (url x)); [done|].
  by destruct x.
Qed.

Lemma deleteLink_run (index : Z) (w : World) :
  deleteLink index w = (Ret (), with_stored (splice (stored w) index 1) w).
Proof. reflexivity. Qed.

Lemma isDuplicate_spec (links : list Link) (u : jsstring) :
  isDuplicate links u = true ↔ ∃ e, e ∈ links ∧ url e = u.
Proof.
  unfold isDuplicate. rewrite existsb_exists. split.
  - intros (e & He & Hu). exists e. split; [by apply list_elem_of_In|].
    by apply str_eqb_eq.
  - intros (e & He & Hu). exists e. split; [by apply list_elem_of_In|].
    by apply str_eqb_eq.
Qed.

Lemma isDuplicate_false (links : list Link) (u : jsstring) :
  isDuplicate links u = false ↔ ∀ e, e ∈ links → url e ≠ u.
Proof.
  rewrite <- not_true_iff_false, isDuplicate_spec. split.
  - intros Hn e He Hu. apply Hn. by exists e.
  - intros Hall (e & He & Hu). by apply (Hall e).
Qed.

Lemma isDuplicate_app (l1 l2 : list Link) (u : jsstring) :
  isDuplicate (l1 ++ l2) u = isDuplicate l1 u || isDuplicate l2 u.
Proof. unfold isDuplicate. apply existsb_app. Qed.

Lemma filter_url_none (links : list Link) (u : jsstring) :
  (∀ e, e ∈ links → url e ≠ u) → filter (λ e, url e = u) links = [].
Proof.
  induction links as [|a links IH]; intros Hno; [done|].
  rewrite filter_cons_False by (apply Hno; left).
  apply IH. intros e He. apply Hno. by right.
Qed.

(** The urls of a store in which no url occurs twice stay so after
    [saveLink]. *)
Lemma saveLink_NoDup (x : Link) (w : World) :
  NoDup (url <$> stored w) → NoDup (url <$> stored (exec (saveLink x) w)).
Proof.
  intros Hnd. unfold exec. rewrite saveLink_run. simpl.
  destruct (isDuplicate (stored w) (url x)) eqn:Hd; [done|].
  rewrite stored_with_stored, fmap_app. simpl.
  apply NoDup_app. split; [done|]. split; [|apply NoDup_singleton].
  intros u Hu Hx. apply list_elem_of_singleton in Hx as ->.
  apply list_elem_of_fmap in Hu as (e & Hue & He).
  rewrite isDuplicate_false in Hd. by apply (Hd e).
Qed.

(** C4. [saveLink] leaves the world as it is when some stored entry has
    the url of the new link, and otherwise appends the link at the end of
    the stored list.  A second [saveLink] with the same url, whatever its
    title, changes nothing; when the url was not stored before, the list
    then holds exactly one entry with that url, the first link added; in a
    store without repeated urls none is repeated afterwards. *)
Theorem C4_saveLink_dedup (w : World) (x : Link) :
  ((∃ e, e ∈ stored w ∧ url e = url x) → exec (saveLink x) w = w)
  ∧ ((∀ e, e ∈ stored w → url e ≠ url x) →
       stored (exec (saveLink x) w) = stored w ++ [x])
  ∧ (∀ y, url y = url x →
       exec (saveLink y) (exec (saveLink x) w) = exec (saveLink x) w)
  ∧ (∀ y, url y = url x → (∀ e, e ∈ stored w → url e ≠ url x) →
       filter (λ e, url e = url x)
         (stored (exec (saveLink y) (exec (saveLink x) w))) = [x])
  ∧ (∀ y, url y = url x → NoDup (url <$> stored w) →
       NoDup (url <$> stored (exec (saveLink y) (exec (saveLink x) w)))
       ∧ url x ∈ url <$> stored (exec (saveLink y) (exec (saveLink x) w))).
Proof.
  assert (Hsnd : ∀ y, url y = url x →
            exec (saveLink y) (exec (saveLink x) w) = exec (saveLink x) w).
  { intros y Hy. unfold exec. rewrite (saveLink_run x w). simpl.
    rewrite saveLink_run. simpl. rewrite Hy.
    destruct (isDuplicate (stored w) (url x)) eqn:Hd.
    - by rewrite Hd.
    - rewrite stored_with_stored, isDuplicate_app. simpl.
      unfold str_eqb. rewrite bool_decide_eq_true_2 by done.
      by rewrite orb_true_r. }
  assert (Hin : url x ∈ url <$> stored (exec (saveLink x) w)).
  { unfold exec. rewrite saveLink_run. simpl.
    destruct (isDuplicate (stored w) (url x)) eqn:Hd.
    - apply isDuplicate_spec in Hd as (e & He & Hu). rewrite <- Hu.
      by apply list_elem_of_fmap_2.
    - rewrite stored_with_stored, fmap_app. apply elem_of_app. right.
      simpl. apply list_elem_of_singleton. done. }
  split; [|split; [|split; [|split]]].
  - intros Hex. apply isDuplicate_spec in Hex.
    unfold exec. rewrite saveLink_run. simpl. by rewrite Hex.
  - intros Hno. apply isDuplicate_false in Hno.
    unfold exec. rewrite saveLink_run. simpl. rewrite Hno.
    apply stored_with_stored.
  - exact Hsnd.
  - intros y Hy Hno. rewrite (Hsnd y Hy).
    pose proof Hno as Hd. apply isDuplicate_false in Hd.
    unfold exec. rewrite saveLink_run. simpl. rewrite Hd.
    rewrite stored_with_stored, filter_app.
    replace (filter (λ e, url e = url x) (stored w)) with (@nil Link).
    + simpl. rewrite filter_cons_True by done. done.
    + symmetry. apply filter_url_none. exact Hno.
  - intros y Hy Hnd. rewrite (Hsnd y Hy). split; [|exact Hin].
    by apply saveLink_NoDup.
Qed.

(** A store reached by two captures of one url with different titles. *)
Lemma C4_saveLink_dedup_witness :
  let x := {| title := js "First"; url := js "https://x.com" |} in
  let y := {| title := js "Second"; url := js "https://x.com" |} in
  stored (exec (saveLink y) (exec (saveLink x) session_start)) = [x].
Proof.
  intros x y.
  pose proof (C4_saveLink_dedup session_start x) as (_ & Hnew & Hsnd & _).
  rewrite (Hsnd y eq_refl). rewrite Hnew; [reflexivity|].
  intros e He. unfold stored in He. simpl in He.
  rewrite lookup_empty in He. by apply elem_of_nil in He.
Defined.

(** Urls that differ only in letter case are different links. *)
Example saveLink_case_sensitive :
  let x := {| title := js "A"; url := js "https://x.com/Page" |} in
  let y := {| title := js "A"; url := js "https://x.com/page" |} in
  stored (exec (saveLink y) (exec (saveLink x) session_start)) = [x; y].
Proof.
  intros x y. unfold exec. rewrite !saveLink_run. reflexivity.
Qed.

(** C10. With nothing under the storage key, [getStoredLinks] returns the
    empty array and neither throws nor changes anything; this is so at
    session start. *)
Theorem C10_getStoredLinks_empty (w : World) :
  session w !! STORAGE_KEY = None →
  getStoredLinks w = (Ret [], w) ∧ stored w = [].
Proof.
  intros Hw. rewrite getStoredLinks_run. unfold stored. by rewrite Hw.
Qed.

Lemma C10_getStoredLinks_empty_witness :
  getStoredLinks session_start = (Ret [], session_start)
  ∧ stored session_start = [].
Proof.
  apply (C10_getStoredLinks_empty session_start). apply lookup_empty.
Defined.

(** [getStoredLinks] always returns a list, whatever the storage holds. *)
Lemma getStoredLinks_total (w : World) :
  ∃ links, getStoredLinks w = (Ret links, w).
Proof. exists (stored w). apply getStoredLinks_run. Qed.

(** ** Deleting by position *)

Lemma delete_out_of_range {A : Type} (xs : list A) (k : nat) :
  (length xs ≤ k)%nat → delete k xs = xs.
Proof.
  intros Hk. rewrite delete_take_drop.
  rewrite take_ge by lia. rewrite drop_ge by lia. apply app_nil_r.
Qed.

(** [splice(start, 1)] deletes the element at the position [start]
    designates: [start] itself when it is not negative, and otherwise
    [length + start], or the first position when that is negative too. *)
Lemma splice_one {A : Type} (xs : list A) (start : Z) :
  splice xs start 1
  = delete
      (Z.to_nat (if start <? 0
                 then Z.max (Z.of_nat (length xs) + start) 0
                 else start))
      xs.
Proof.
  unfold splice. set (len := Z.of_nat (length xs)).
  destruct (Z.ltb_spec start 0) as [Hneg|Hpos].
  - destruct (Z.eq_dec len 0) as [H0|Hlen].
    + assert (xs = []) as -> by (apply length_zero_iff_nil; lia).
      rewrite take_nil, drop_nil. by destruct (Z.to_nat _).
    + replace (Z.min (Z.max 1 0) (len - Z.max (len + start) 0)) with 1 by lia.
      rewrite delete_take_drop. f_equal. f_equal. lia.
  - destruct (Z.lt_ge_cases start len) as [Hin|Hout].
    + replace (Z.min start len) with start by lia.
      replace (Z.min (Z.max 1 0) (len - start)) with 1 by lia.
      rewrite delete_take_drop. f_equal. f_equal. lia.
    + replace (Z.min start len) with len by lia.
      replace (Z.min (Z.max 1 0) (len - len)) with 0 by lia.
      rewrite delete_out_of_range by lia.
      rewrite Z.add_0_r. apply take_drop.
Qed.

(** C3, as the code has it.  [deleteLink(i)] with [0 <= i < |L|] removes
    exactly the element at position [i]: the elements before it keep their
    positions and the ones after it move down by one.  With [i >= |L|] the
    list is unchanged.  A negative [i] is counted from the end of the
    list: the element at position [max(|L| + i, 0)] is removed.  In every
    case the remaining elements keep their relative order. *)
Theorem C3_deleteLink (w : World) (i : Z) :
  let L := stored w in
  let L' := stored (exec (deleteLink i) w) in
  (0 ≤ i < Z.of_nat (length L) →
     L' = take (Z.to_nat i) L ++ drop (S (Z.to_nat i)) L
     ∧ S (length L') = length L
     ∧ (∀ j : nat, (j < Z.to_nat i)%nat → L' !! j = L !! j)
     ∧ (∀ j : nat, (Z.to_nat i ≤ j)%nat → L' !! j = L !! S j))
  ∧ (Z.of_nat (length L) ≤ i → L' = L)
  ∧ (i < 0 → L' = delete (Z.to_nat (Z.max (Z.of_nat (length L) + i) 0)) L)
  ∧ L' `sublist_of` L.
Proof.
  intros L L'.
  assert (HL' : L' = splice L i 1).
  { unfold L', exec. rewrite deleteLink_run. apply stored_with_stored. }
  rewrite HL', splice_one. clear HL' L'.
  split; [|split; [|split]].
  - intros [Hlo Hhi]. destruct (Z.ltb_spec i 0) as [?|_]; [lia|].
    split; [apply delete_take_drop|]. split.
    + rewrite length_delete; [lia|]. apply lookup_lt_is_Some. lia.
    + split; intros j Hj.
      * by apply list_lookup_delete_lt.
      * by apply list_lookup_delete_ge.
  - intros Hge. destruct (Z.ltb_spec i 0) as [?|_]; [lia|].
    apply delete_out_of_range. lia.
  - intros Hneg. destruct (Z.ltb_spec i 0) as [_|?]; [done|lia].
  - apply sublist_delete.
Qed.

Lemma C3_deleteLink_witness :
  let a := {| title := js "A"; url := js "https://x.com" |} in
  let b := {| title := js "B"; url := js "https://y.com" |} in
  let w := with_stored [a; b] session_start in
  stored (exec (deleteLink 0) w) = [b]
  ∧ stored (exec (deleteLink 99) w) = [a; b]
  ∧ stored (exec (deleteLink (-2)) w) = [b].
Proof.
  intros a b w.
  assert (HL : stored w = [a; b]) by apply stored_with_stored.
  pose proof (C3_deleteLink w 0) as (H0 & _).
  pose proof (C3_deleteLink w 99) as (_ & H99 & _).
  pose proof (C3_deleteLink w (-2)) as (_ & _ & Hneg & _).
  simpl in H0, H99, Hneg. rewrite HL in H0, H99, Hneg.
  split; [|split].
  - apply H0. simpl. lia.
  - apply H99. simpl. lia.
  - apply Hneg. lia.
Defined.

(** C3 as stated fails for a negative index: [deleteLink(-1)] on a list of
    two removes the last element instead of leaving the list alone. *)
Lemma C3_negative_index_counterexample :
  let a := {| title := js "A"; url := js "https://x.com" |} in
  let b := {| title := js "B"; url := js "https://y.com" |} in
  let w := with_stored [a; b] session_start in
  stored w = [a; b] ∧ stored (exec (deleteLink (-1)) w) = [a].
Proof.
  intros a b w. split; [apply stored_with_stored|].
  unfold exec. rewrite deleteLink_run. simpl.
  rewrite stored_with_stored. unfold w. by rewrite stored_with_stored.
Qed.

(** ** Trimming *)

Lemma trimStart_blank (s : jsstring) : trimStart s = [] ↔ blank s.
Proof.
  unfold blank. induction s as [|c s IH]; simpl.
  - split; [constructor | done].
  - destruct (isWhiteSpace c) eqn:Hc.
    + rewrite IH. split; [by constructor | by inversion 1].
    + split; [done|]. inversion 1; congruence.
Qed.

Lemma blank_reverse (s : jsstring) : blank (reverse s) ↔ blank s.
Proof. unfold blank. by rewrite Forall_reverse. Qed.

Lemma trimEnd_blank (s : jsstring) : trimEnd s = [] ↔ blank s.
Proof.
  unfold trimEnd. rewrite <- blank_reverse, <- trimStart_blank.
  split; intros Hs.
  - by rewrite <- (reverse_involutive (trimStart _)), Hs.
  - by rewrite Hs.
Qed.

(** A string trims to [""] exactly when it is made of white space only. *)
Lemma trim_blank (s : jsstring) : trim s = [] ↔ blank s.
Proof.
  unfold trim. rewrite trimEnd_blank. split.
  - intros Hb. apply trimStart_blank.
    pose proof (trimStart_head s) as Hh.
    destruct (trimStart s) as [|c t]; [done|].
    inversion Hb; congruence.
  - intros Hb. apply trimStart_blank in Hb. rewrite Hb. constructor.
Qed.

Lemma trimStart_decompose (s : jsstring) :
  ∃ pre, s = pre ++ trimStart s ∧ blank pre.
Proof.
  induction s as [|c s (pre & Hs & Hpre)]; simpl.
  - exists []. split; [done | constructor].
  - destruct (isWhiteSpace c) eqn:Hc.
    + exists (c :: pre). split; [simpl; congruence | by constructor].
    + exists []. split; [done | constructor].
Qed.

Lemma trimEnd_decompose (s : jsstring) :
  ∃ post, s = trimEnd s ++ post ∧ blank post.
Proof.
  destruct (trimStart_decompose (reverse s)) as (pre & Hs & Hpre).
  exists (reverse pre). split; [|by apply blank_reverse].
  unfold trimEnd. rewrite <- reverse_app, <- Hs. by rewrite reverse_involutive.
Qed.

(** [trim] removes a run of white space at each end and nothing else, and
    what is left neither starts nor ends with white space. *)
Lemma trim_decompose (s : jsstring) :
  ∃ pre post,
    s = pre ++ trim s ++ post ∧ blank pre ∧ blank post
    ∧ match trim s with
      | [] => True
      | c :: _ => isWhiteSpace c = false
      end
    ∧ match reverse (trim s) with
      | [] => True
      | c :: _ => isWhiteSpace c = false
      end.
Proof.
  destruct (trimStart_decompose s) as (pre & Hs & Hpre).
  destruct (trimEnd_decompose (trimStart s)) as (post & Ht & Hpost).
  exists pre, post. fold (trim s) in Ht. split; [congruence|].
  split; [done|]. split; [done|]. split.
  - unfold trim. rewrite <- (trimEnd_head (trimStart s)) by apply trimStart_head.
    apply trimStart_head.
  - unfold trim, trimEnd. rewrite reverse_involutive. apply trimStart_head.
Qed.

(** ** Title cleanup and domain fallback *)

Lemma strip_www_prefixed (h : jsstring) : strip_www (js "www." ++ h) = h.
Proof. unfold strip_www. by rewrite startsWith_app. Qed.

Lemma strip_www_other (h : jsstring) :
  ¬ begins_with "www." h → strip_www h = h.
Proof.
  intros Hn. unfold strip_www.
  destruct (startsWith (js "www.") h) eqn:Hs; [|done].
  destruct Hn. by apply startsWith_spec.
Qed.

Lemma is_http_spec (u : URL) :
  is_http u = true ↔ protocol u = js "http:" ∨ protocol u = js "https:".
Proof. unfold is_http. by rewrite orb_true_iff, !str_eqb_eq. Qed.

Lemma whenTruthy_Some (o : option jsstring) (s : jsstring) :
  whenTruthy o = Some s ↔ o = Some s ∧ s ≠ [].
Proof.
  destruct o as [[|c t]|]; simpl; split; try done.
  - by intros [? ?]; simplify_eq.
  - by intros [= <-].
  - by intros [[= <-] _].
  - by intros [? ?].
Qed.

Lemma whenTruthy_None (o : option jsstring) :
  whenTruthy o = None ↔ o = None ∨ o = Some [].
Proof.
  destruct o as [[|c t]|]; simpl; split; try done; auto.
  by intros [?|?].
Qed.

Section Titles.
Context `{Browser}.

Lemma getDomain_parsed (u : jsstring) (parsed : URL) :
  URL_parse u = Some parsed → getDomain u = strip_www (hostname parsed).
Proof. intros Hp. unfold getDomain. by rewrite Hp. Qed.

Lemma getDomain_unparsed (u : jsstring) :
  URL_parse u = None → getDomain u = js "Link".
Proof. intros Hp. unfold getDomain. by rewrite Hp. Qed.

Lemma makeResult_url (candidate : option jsstring) (u : jsstring) :
  url (makeResult candidate u) = u.
Proof. reflexivity. Qed.

Lemma makeResult_null (u : jsstring) :
  makeResult None u = {| title := getDomain u; url := u |}.
Proof. reflexivity. Qed.

Lemma makeResult_text (t u : jsstring) :
  trim t ≠ [] → makeResult (Some t) u = {| title := trim t; url := u |}.
Proof.
  intros Ht. unfold makeResult. simpl.
  by destruct (trim t).
Qed.

Lemma makeResult_blank (t u : jsstring) :
  trim t = [] → makeResult (Some t) u = {| title := getDomain u; url := u |}.
Proof. intros Ht. unfold makeResult. simpl. by rewrite Ht. Qed.

(** C8. The title of [makeResult(candidate, url)] is the candidate, with
    surrounding white space trimmed, when something is left after
    trimming; it is the candidate itself when that is already trimmed,
    as it is at every call.  For a [null] candidate and for one made of
    white space only it is the domain fallback: the hostname of the
    parsed url without one leading ["www."], or ["Link"] when the url
    does not parse. *)
Theorem C8_title_cleanup (candidate : option jsstring) (u : jsstring) :
  let final := title (makeResult candidate u) in
  (∀ t, candidate = Some t → trim t ≠ [] → final = trim t)
  ∧ (∀ t, candidate = Some (trim t) → trim t ≠ [] → final = trim t)
  ∧ (candidate = None → final = getDomain u)
  ∧ (∀ t, candidate = Some t → blank t → final = getDomain u)
  ∧ (∀ parsed h, URL_parse u = Some parsed →
       (hostname parsed = js "www." ++ h → getDomain u = h)
       ∧ (¬ begins_with "www." (hostname parsed) →
            getDomain u = hostname parsed))
  ∧ (URL_parse u = None → getDomain u = js "Link").
Proof.
  intros final. unfold final.
  split; [|split; [|split; [|split; [|split]]]].
  - intros t -> Ht. by rewrite makeResult_text.
  - intros t -> Ht. rewrite makeResult_text by by rewrite trim_idem.
    apply trim_idem.
  - intros ->. by rewrite makeResult_null.
  - intros t -> Ht. apply trim_blank in Ht. by rewrite makeResult_blank.
  - intros parsed h Hp. rewrite (getDomain_parsed _ _ Hp). split.
    + intros ->. apply strip_www_prefixed.
    + apply strip_www_other.
  - apply getDomain_unparsed.
Qed.

End Titles.

(** The example of the specification: an empty title and the url
    ["https://www.example.com/page"] give the title ["example.com"]; a
    second ["www."] stays. *)
Lemma C8_title_cleanup_witness :
  title (makeResult (Some (js "   ")) (js "https://www.example.com/page"))
  = js "example.com"
  ∧ title (makeResult None (js "https://www.www.example.com/"))
    = js "www.example.com"
  ∧ title (makeResult (Some (js " Docs ")) (js "https://www.example.com/page"))
    = js "Docs"
  ∧ title (makeResult None (js "not a url")) = js "Link".
Proof.
  split; [|split; [|split]].
  - pose proof (C8_title_cleanup (Some (js "   "))
                  (js "https://www.example.com/page")) as (_ & _ & _ & Hb & Hd & _).
    rewrite (Hb (js "   ") eq_refl).
    + destruct (Hd {| protocol := js "https:"; hostname := js "www.example.com" |}
                  (js "example.com") eq_refl) as [Hw _].
      by apply Hw.
    + repeat constructor.
  - pose proof (C8_title_cleanup None (js "https://www.www.example.com/"))
      as (_ & _ & Hn & _ & Hd & _).
    rewrite (Hn eq_refl).
    destruct (Hd {| protocol := js "https:";
                    hostname := js "www.www.example.com" |}
                (js "www.example.com") eq_refl) as [Hw _].
    by apply Hw.
  - pose proof (C8_title_cleanup (Some (js " Docs "))
                  (js "https://www.example.com/page")) as (Ht & _).
    rewrite (Ht (js " Docs ") eq_refl); [reflexivity | done].
  - pose proof (C8_title_cleanup None (js "not a url"))
      as (_ & _ & Hn & _ & _ & Hl).
    rewrite (Hn eq_refl). by apply Hl.
Defined.

(** ** Capture coordinator *)

Lemma matches_http_spec (s : jsstring) :
  matches_http s = true ↔ begins_with "http://" s ∨ begins_with "https://" s.
Proof.
  unfold matches_http, begins_with.
  by rewrite orb_true_iff, !startsWith_spec.
Qed.

Lemma session_log_event (e : Event) (w : World) :
  session (exec (log_event e) w) = session w.
Proof. reflexivity. Qed.

Lemma stored_log_event (e : Event) (w : World) :
  stored (exec (log_event e) w) = stored w.
Proof. reflexivity. Qed.

Lemma saveLink_events (x : Link) (w : World) :
  events (exec (saveLink x) w) = events w.
Proof.
  unfold exec. rewrite saveLink_run. simpl.
  by destruct (isDuplicate (stored w) (url x)).
Qed.

Section CoordinatorFacts.
Context `{Browser}.

Lemma saveMainFrameResult_run (results : list InjectionResult) (w : World) :
  saveMainFrameResult results w
  = (Ret (),
     match head results ≫= result with
     | Some link => if truthy (url link) then exec (saveLink link) w else w
     | None => w
     end).
Proof.
  unfold saveMainFrameResult.
  destruct (head results ≫= result) as [link|]; [|done].
  destruct (truthy (url link)); [|done].
  unfold exec. by rewrite saveLink_run.
Qed.

Lemma handleLinkCapture_run (tab : Tab) (info : option Info)
    (access : option Page) (w : World) :
  handleLinkCapture tab info access w
  = (Ret (),
     match whenTruthy (tab_url tab) with
     | Some u =>
         if matches_http u
         then after_injection info access
                (exec (log_event (ExecuteScript (tab_id tab))) w)
         else w
     | None => w
     end).
Proof.
  unfold handleLinkCapture.
  destruct (whenTruthy (tab_url tab)) as [u|]; [|done].
  destruct (matches_http u); [|done].
  unfold try_catch, mbind, Eff_bind, executeScript, after_injection.
  destruct access as [page|]; [|done].
  destruct (findLinkOnPage page info) as [[link|]|].
  - rewrite saveMainFrameResult_run. done.
  - rewrite saveMainFrameResult_run. done.
  - destruct page_throw_rejects; [done|].
    rewrite saveMainFrameResult_run. done.
Qed.

(** The coordinator never throws. *)
Lemma handleLinkCapture_returns (tab : Tab) (info : option Info)
    (access : option Page) (w : World) :
  (handleLinkCapture tab info access w).1 = Ret ().
Proof. by rewrite handleLinkCapture_run. Qed.

Lemma handleLinkCapture_no_result (tab : Tab) (info : option Info)
    (access : option Page) (w : World) :
  (∀ page, access = Some page → findLinkOnPage page info = Ret None) →
  session (exec (handleLinkCapture tab info access) w) = session w.
Proof.
  intros Hno. unfold exec. rewrite handleLinkCapture_run. simpl.
  destruct (whenTruthy (tab_url tab)) as [u|]; [|done].
  destruct (matches_http u); [|done].
  unfold after_injection. destruct access as [page|]; [|done].
  by rewrite (Hno page eq_refl).
Qed.

(** C6. On a tab whose url is missing or does not begin with [http://]
    or [https://], [handleLinkCapture] returns at once: no script is
    injected, nothing is logged and storage is not touched.  After an
    injection, a missing result and a result with an empty url leave
    the world as it is; and the coordinator never throws. *)
Theorem C6_coordinator_rejects (tab : Tab) (info : option Info)
    (access : option Page) (w : World) :
  ((∀ u, tab_url tab = Some u →
      ¬ begins_with "http://" u ∧ ¬ begins_with "https://" u) →
     handleLinkCapture tab info access w = (Ret (), w))
  ∧ (∀ results,
       (head results ≫= result = None
        ∨ ∃ link, head results ≫= result = Some link ∧ url link = []) →
       saveMainFrameResult results w = (Ret (), w))
  ∧ (∀ page, access = Some page → findLinkOnPage page info = Ret None →
       session (exec (handleLinkCapture tab info access) w) = session w)
  ∧ (handleLinkCapture tab info access w).1 = Ret ().
Proof.
  split; [|split; [|split]].
  - intros Hu. rewrite handleLinkCapture_run.
    destruct (whenTruthy (tab_url tab)) as [u|] eqn:Htab; [|done].
    apply whenTruthy_Some in Htab as [Htab _].
    destruct (matches_http u) eqn:Hm; [|done].
    apply matches_http_spec in Hm. destruct (Hu u Htab) as [? ?]. tauto.
  - intros results Hr. rewrite saveMainFrameResult_run.
    destruct Hr as [-> | (link & -> & Hl)]; [done|]. by rewrite Hl.
  - intros page -> Hno. apply handleLinkCapture_no_result.
    by intros ? [= <-].
  - apply handleLinkCapture_returns.
Qed.

End CoordinatorFacts.

(** The example of the specification: a capture attempted on
    ["chrome://extensions"] injects nothing and stores nothing. *)
Lemma C6_coordinator_rejects_witness :
  let tab := {| tab_id := 7; tab_url := Some (js "chrome://extensions") |} in
  let page := {| anchors := []; selection := Some (js "https://x.com") |} in
  handleLinkCapture tab ShortcutTrigger (Some page) session_start
  = (Ret (), session_start)
  ∧ saveMainFrameResult
      [ {| result := Some {| title := js "T"; url := [] |} |} ] session_start
    = (Ret (), session_start).
Proof.
  intros tab page.
  pose proof (C6_coordinator_rejects tab ShortcutTrigger (Some page)
                session_start) as (Htab & Hres & _).
  split.
  - apply Htab. intros u [= <-]. split; intros [t Ht]; discriminate Ht.
  - apply Hres. right. eexists. split; reflexivity.
Defined.

(** ** Link extractor *)

Section ExtractorFacts.
Context `{Browser}.

Lemma tryUrlText_http (text : jsstring) (rest : option Link) (u : URL) :
  URL_parse text = Some u → is_http u = true →
  tryUrlText text rest = Some {| title := getDomain text; url := text |}.
Proof. intros Hp Hh. unfold tryUrlText. by rewrite Hp, Hh. Qed.

Lemma tryUrlText_Some (text : jsstring) (rest : option Link) (e : Link) :
  tryUrlText text rest = Some e →
  (∃ u, URL_parse text = Some u ∧ is_http u = true
        ∧ e = {| title := getDomain text; url := text |})
  ∨ rest = Some e.
Proof.
  unfold tryUrlText. destruct (URL_parse text) as [u|] eqn:Hp; [|done].
  destruct (is_http u) eqn:Hh.
  - intros [= <-]. left. by exists u.
  - by right.
Qed.

(** A selection click never looks at the page: the result is decided by
    the trimmed text alone. *)
Lemma findLinkOnPage_selection (page : Page) (s : jsstring) :
  findLinkOnPage page (SelectionClick s) = Ret (tryUrlText (trim s) None).
Proof.
  unfold findLinkOnPage, SelectionClick. simpl.
  destruct s as [|c s]; simpl; [|done].
  unfold tryUrlText. change (trim []) with (@nil code_unit).
  by rewrite URL_parse_empty.
Qed.

(** A link click on a url that the selector reads literally: the anchors
    considered are those whose raw [href] attribute is the url. *)
Lemma findLinkOnPage_link (page : Page) (u : jsstring) :
  u ≠ [] → forallb cssLiteral u = true →
  findLinkOnPage page (LinkClick u)
  = Ret (Some {| title :=
                   default (getDomain u)
                     (firstText
                        (filter (λ a, attr_href a = Some u) (anchors page)));
                 url := u |}).
Proof.
  intros Hu Hlit. unfold findLinkOnPage, LinkClick. simpl.
  destruct u as [|c u]; [done|]. simpl.
  unfold querySelectorAll_href. rewrite Hlit.
  destruct (firstText _) as [text|] eqn:Hft; [|done].
  simpl. rewrite makeResult_text; [|].
  - f_equal. f_equal. f_equal.
    clear -Hft. induction (filter _ _) as [|a l IH]; [done|].
    simpl in Hft. destruct (truthy (trim (textContent a))).
    + injection Hft as <-. apply trim_idem.
    + by apply IH.
  - clear -Hft. induction (filter _ _) as [|a l IH]; [done|].
    simpl in Hft. destruct (truthy (trim (textContent a))) eqn:Ht.
    + injection Hft as <-. rewrite trim_idem. by apply truthy_nonempty.
    + by apply IH.
Qed.

(** C5. For a selection click, the extractor trims the selected text.
    When the trimmed text parses as a URL whose protocol is [http:] or
    [https:], the result is the trimmed text as url with the domain
    fallback as title.  When it does not parse, or parses with another
    protocol, there is no result and the capture leaves storage as it
    was. *)
Theorem C5_selection_click (s : jsstring) (page : Page) :
  let text := trim s in
  (∀ u, URL_parse text = Some u →
        protocol u = js "http:" ∨ protocol u = js "https:" →
        findLinkOnPage page (SelectionClick s)
        = Ret (Some {| title := strip_www (hostname u); url := text |}))
  ∧ ((URL_parse text = None
      ∨ ∃ u, URL_parse text = Some u
             ∧ protocol u ≠ js "http:" ∧ protocol u ≠ js "https:") →
     findLinkOnPage page (SelectionClick s) = Ret None
     ∧ ∀ tab access w,
         session (exec (handleLinkCapture tab (SelectionClick s) access) w)
         = session w).
Proof.
  intros text. split.
  - intros u Hp Hproto. rewrite findLinkOnPage_selection. fold text.
    apply is_http_spec in Hproto.
    rewrite (tryUrlText_http _ _ _ Hp Hproto).
    by rewrite (getDomain_parsed _ _ Hp).
  - intros Hbad.
    assert (Hnone : tryUrlText text None = None).
    { unfold tryUrlText. destruct Hbad as [-> | (u & -> & Hn1 & Hn2)]; [done|].
      destruct (is_http u) eqn:Hh; [|done].
      apply is_http_spec in Hh. tauto. }
    split.
    + rewrite findLinkOnPage_selection. fold text. by rewrite Hnone.
    + intros tab access w. apply handleLinkCapture_no_result.
      intros page' _. rewrite findLinkOnPage_selection. fold text.
      by rewrite Hnone.
Qed.

End ExtractorFacts.

(** The examples of the specification: a selected http url is captured
    with its domain as title; ["hello world"] and an ftp url are not
    captured. *)
Lemma C5_selection_click_witness :
  let page := {| anchors := []; selection := None |} in
  let tab := {| tab_id := 1; tab_url := Some (js "https://news.example.org/") |} in
  findLinkOnPage page (SelectionClick (js "  https://www.example.com/page "))
  = Ret (Some {| title := js "example.com";
                 url := js "https://www.example.com/page" |})
  ∧ findLinkOnPage page (SelectionClick (js "hello world")) = Ret None
  ∧ session (exec (handleLinkCapture tab (SelectionClick (js "hello world"))
                     (Some page)) session_start)
    = session session_start
  ∧ findLinkOnPage page (SelectionClick (js "ftp://files.example.org/a"))
    = Ret None.
Proof.
  intros page tab.
  pose proof (C5_selection_click (js "  https://www.example.com/page ") page)
    as (Hgood & _).
  pose proof (C5_selection_click (js "hello world") page) as (_ & Hbad).
  pose proof (C5_selection_click (js "ftp://files.example.org/a") page)
    as (_ & Hftp).
  split; [|split; [|split]].
  - apply (Hgood {| protocol := js "https:"; hostname := js "www.example.com" |});
      [reflexivity | by right].
  - apply Hbad. by left.
  - apply Hbad. by left.
  - apply Hftp. right.
    exists {| protocol := js "ftp:"; hostname := js "files.example.org" |}.
    split; [reflexivity | split; discriminate].
Defined.

(** C2, at an anchor written with a relative [href].  The anchor's
    resolved href is the clicked url and it has text, yet the attribute
    selector compares the raw attribute ["/docs"] and finds no anchor: in
    every browser the title is the domain fallback, not the anchor's text
    ["Docs"]. *)
Theorem C2_relative_href_not_matched :
  let u := js "https://example.com/docs" in
  let a := {| attr_href := Some (js "/docs"); href := u;
              textContent := js "Docs"; hover := false |} in
  let page := {| anchors := [a]; selection := None |} in
  href a = u
  ∧ trim (textContent a) = js "Docs"
  ∧ (∀ B : Browser,
       @findLinkOnPage B page (LinkClick u)
       = Ret (Some {| title := @getDomain B u; url := u |}))
  ∧ findLinkOnPage page (LinkClick u)
    = Ret (Some {| title := js "example.com"; url := u |}).
Proof.
  intros u a page. split; [reflexivity|]. split; [reflexivity|]. split.
  - intros B. rewrite findLinkOnPage_link; [reflexivity | done | reflexivity].
  - reflexivity.
Qed.

(** With the attribute written in full the same click takes the anchor's
    text. *)
Example C2_absolute_href_matched :
  let u := js "https://example.com/docs" in
  let a := {| attr_href := Some u; href := u;
              textContent := js " Docs "; hover := false |} in
  findLinkOnPage {| anchors := [a]; selection := None |} (LinkClick u)
  = Ret (Some {| title := js "Docs"; url := u |}).
Proof. reflexivity. Qed.

(** ** Where stored links come from *)

Section ProvenanceFacts.
Context `{Browser}.

Lemma from_selection_extracted (page : Page) (e : Link) :
  match whenTruthy (trim <$> selection page) with
  | Some sel => tryUrlText sel None
  | None => None
  end = Some e →
  extracted_from page None e.
Proof.
  destruct (whenTruthy (trim <$> selection page)) as [sel|] eqn:Hs; [|done].
  intros He. apply tryUrlText_Some in He as [(u & Hp & Hh & ->)|?]; [|done].
  apply whenTruthy_Some in Hs as [Hsel Hne].
  destruct (selection page) as [s|] eqn:Hpage; [|done].
  injection Hsel as <-.
  split; [done|]. right. right. by exists s, u.
Qed.

Lemma fromShortcut_extracted (page : Page) (e : Link) :
  fromShortcut page = Some e → extracted_from page None e.
Proof.
  unfold fromShortcut.
  destruct (querySelector_hover page) as [a|] eqn:Hq; cbv zeta.
  - destruct (truthy (href a)) eqn:Ht.
    + intros [= <-]. split; [by apply truthy_nonempty|].
      right. left. split; [done|]. by exists a.
    + apply from_selection_extracted.
  - apply from_selection_extracted.
Qed.

(** Every link the extractor returns has a non-empty url with one of the
    three origins. *)
Lemma findLinkOnPage_extracted (page : Page) (info : option Info) (e : Link) :
  findLinkOnPage page info = Ret (Some e) → extracted_from page info e.
Proof.
  unfold findLinkOnPage.
  destruct (whenTruthy (info ≫= linkUrl)) as [u|] eqn:Hu.
  - apply whenTruthy_Some in Hu as [Hu Hne].
    destruct (querySelectorAll_href page u) as [links|]; [|done].
    intros He. assert (url e = u) as Hurl.
    { destruct (firstText links); by injection He as <-. }
    rewrite <- Hurl in Hu, Hne. split; [done|]. by left.
  - intros [= He].
    assert (Hpath3 : match info with
                     | Some _ => None
                     | None => fromShortcut page
                     end = Some e → extracted_from page info e).
    { destruct info; [done|]. apply fromShortcut_extracted. }
    destruct (whenTruthy (info ≫= selectionText)) as [sel|] eqn:Hs;
      [|by apply Hpath3].
    apply whenTruthy_Some in Hs as [Hsel _].
    destruct info as [i|]; [|done]. simpl in Hsel.
    apply tryUrlText_Some in He as [(p & Hp & Hh & ->)|?]; [|done].
    split.
    + simpl. intros Hnil. rewrite Hnil, URL_parse_empty in Hp. done.
    + right. right. by exists sel, p.
Qed.

(** One capture attempt leaves the stored list as it was or appends one
    link that it captured. *)
Lemma capture_step (c : Capture) (w : World) :
  stored (exec (capture c) w) = stored w
  ∨ ∃ e, stored (exec (capture c) w) = stored w ++ [e] ∧ captured_by c e.
Proof.
  unfold capture, exec. rewrite handleLinkCapture_run. simpl.
  destruct (whenTruthy (tab_url (c_tab c))) as [u|] eqn:Htab; [|by left].
  apply whenTruthy_Some in Htab as [Htab _].
  destruct (matches_http u) eqn:Hm; [|by left].
  apply matches_http_spec in Hm.
  unfold after_injection.
  destruct (c_access c) as [page|] eqn:Hacc; [|by left].
  destruct (findLinkOnPage page (c_info c)) as [[e|]|] eqn:Hfind.
  - destruct (truthy (url e)); [|by left].
    unfold exec. rewrite saveLink_run. simpl.
    destruct (isDuplicate _ _); [by left|].
    right. exists e. split; [by rewrite stored_with_stored|].
    split; [by exists u|]. exists page. split; [done|].
    by apply findLinkOnPage_extracted.
  - by left.
  - destruct page_throw_rejects; by left.
Qed.

Lemma captures_cons (c : Capture) (cs : list Capture) (w : World) :
  captures (c :: cs) w = captures cs (exec (capture c) w).
Proof. reflexivity. Qed.

Lemma captures_provenance (cs : list Capture) (w : World) (e : Link) :
  e ∈ stored (captures cs w) →
  e ∈ stored w ∨ ∃ c, c ∈ cs ∧ captured_by c e.
Proof.
  revert w. induction cs as [|c cs IH]; intros w He; [by left|].
  rewrite captures_cons in He. apply IH in He as [He|(c' & Hc' & Hcap)].
  - destruct (capture_step c w) as [Hsame|(e' & Happ & Hcap)].
    + left. by rewrite <- Hsame.
    + rewrite Happ in He. apply elem_of_app in He as [He|He]; [by left|].
      apply list_elem_of_singleton in He as ->.
      right. exists c. split; [left | done].
  - right. exists c'. split; [by right | done].
Qed.

(** Captures keep a store free of repeated urls. *)
Lemma captures_NoDup (cs : list Capture) (w : World) :
  NoDup (url <$> stored w) → NoDup (url <$> stored (captures cs w)).
Proof.
  revert w. induction cs as [|c cs IH]; intros w Hnd; [done|].
  rewrite captures_cons. apply IH.
  unfold capture, exec. rewrite handleLinkCapture_run. simpl.
  destruct (whenTruthy (tab_url (c_tab c))) as [u|]; [|done].
  destruct (matches_http u); [|done].
  unfold after_injection. destruct (c_access c) as [page|]; [|done].
  destruct (findLinkOnPage page (c_info c)) as [[e|]|].
  - destruct (truthy (url e)); [|done]. by apply saveLink_NoDup.
  - done.
  - by destruct page_throw_rejects.
Qed.

(** On a web page, a link the extractor returns with a non-empty url ends
    up in the store. *)
Lemma returned_link_is_stored (tab : Tab) (tab_u : jsstring)
    (info : option Info) (page : Page) (e : Link) (w : World) :
  tab_url tab = Some tab_u → matches_http tab_u = true →
  findLinkOnPage page info = Ret (Some e) → url e ≠ [] →
  url e ∈ url <$> stored (exec (handleLinkCapture tab info (Some page)) w).
Proof.
  intros Htab Hm Hfind Hne.
  unfold exec. rewrite handleLinkCapture_run. cbn [snd].
  rewrite Htab. assert (whenTruthy (Some tab_u) = Some tab_u) as ->
    by by destruct tab_u.
  rewrite Hm. unfold after_injection. rewrite Hfind.
  apply truthy_nonempty in Hne. rewrite Hne.
  set (w1 := exec (log_event _) w).
  unfold exec. rewrite saveLink_run. cbn [snd].
  destruct (isDuplicate (stored w1) (url e)) eqn:Hd.
  - apply isDuplicate_spec in Hd as (e' & He' & <-).
    by apply list_elem_of_fmap_2.
  - rewrite stored_with_stored, fmap_app. apply elem_of_app. right.
    by apply list_elem_of_singleton.
Qed.

(** C1, as the code has it.  After any sequence of capture attempts
    from session start, every stored entry was captured on a tab whose
    url begins with [http://] or [https://], and its url is not empty
    and is the [linkUrl] of a link click, or the [href] of the hovered
    anchor of a shortcut, or the trimmed text of a selection that parses
    as a URL with protocol [http:] or [https:].  The url of a clicked
    link and the href of a hovered anchor are not checked: on such a tab,
    a link click with any non-empty url leaves an entry with exactly that
    url in the store as soon as the lookup of the anchor does not throw,
    and a shortcut over an anchor with any non-empty href leaves an entry
    with exactly that href. *)
Theorem C1_stored_links_provenance (cs : list Capture) :
  (∀ e, e ∈ stored (captures cs session_start) →
        ∃ c, c ∈ cs ∧ captured_by c e)
  ∧ (∀ tab tab_u u page links w,
       tab_url tab = Some tab_u → matches_http tab_u = true →
       u ≠ [] → querySelectorAll_href page u = Ret links →
       u ∈ url <$>
             stored (exec (handleLinkCapture tab (LinkClick u) (Some page))
                       w))
  ∧ (∀ tab tab_u page a w,
       tab_url tab = Some tab_u → matches_http tab_u = true →
       querySelector_hover page = Some a → href a ≠ [] →
       href a ∈ url <$>
                  stored (exec (handleLinkCapture tab ShortcutTrigger
                                  (Some page)) w)).
Proof.
  split; [|split].
  - intros e He. apply captures_provenance in He as [He|He]; [|done].
    by apply elem_of_nil in He.
  - intros tab tab_u u page links w Htab Hm Hu Hq.
    assert (∃ e, findLinkOnPage page (LinkClick u) = Ret (Some e)
                 ∧ url e = u) as (e & Hfind & <-).
    { unfold findLinkOnPage, LinkClick. simpl.
      destruct u as [|c u]; [done|]. simpl. rewrite Hq.
      destruct (firstText links); eexists; split; reflexivity. }
    by apply (returned_link_is_stored tab tab_u _ page e w).
  - intros tab tab_u page a w Htab Hm Hq Hhref.
    assert (∃ e, findLinkOnPage page ShortcutTrigger = Ret (Some e)
                 ∧ url e = href a) as (e & Hfind & Hurl).
    { unfold findLinkOnPage, ShortcutTrigger. simpl. unfold fromShortcut.
      rewrite Hq. apply truthy_nonempty in Hhref. rewrite Hhref.
      eexists; split; reflexivity. }
    rewrite <- Hurl. apply (returned_link_is_stored tab tab_u _ page e w);
      [done | done | done | by rewrite Hurl].
Qed.

End ProvenanceFacts.

(** A session of three captures: a clicked [mailto:] link, a selected url
    and a hovered [ftp:] link. *)
Lemma C1_stored_links_provenance_witness :
  let tab := {| tab_id := 1; tab_url := Some (js "https://example.com/") |} in
  let a := {| attr_href := Some (js "mailto:team@example.com");
              href := js "mailto:team@example.com";
              textContent := js "Mail us"; hover := false |} in
  let b := {| attr_href := Some (js "ftp://files.example.com/a.txt");
              href := js "ftp://files.example.com/a.txt";
              textContent := js "a.txt"; hover := true |} in
  let page := {| anchors := [a; b]; selection := None |} in
  let c1 := {| c_tab := tab; c_info := LinkClick (js "mailto:team@example.com");
               c_access := Some page |} in
  let c2 := {| c_tab := tab; c_info := SelectionClick (js "https://x.com");
               c_access := Some page |} in
  let c3 := {| c_tab := tab; c_info := ShortcutTrigger;
               c_access := Some page |} in
  (∀ e, e ∈ stored (captures [c1; c2; c3] session_start) →
        ∃ c, c ∈ [c1; c2; c3] ∧ captured_by c e)
  ∧ js "mailto:team@example.com"
    ∈ url <$> stored (exec (capture c1) session_start)
  ∧ js "ftp://files.example.com/a.txt"
    ∈ url <$> stored (exec (capture c3) session_start).
Proof.
  intros tab a b page c1 c2 c3.
  pose proof (C1_stored_links_provenance [c1; c2; c3]) as (Hall & Hlink & Hhover).
  split; [exact Hall|]. split.
  - apply (Hlink tab (js "https://example.com/") _ page [a]);
      [reflexivity | reflexivity | done | reflexivity].
  - apply (Hhover tab (js "https://example.com/") page b);
      [reflexivity | reflexivity | reflexivity | done].
Defined.

(** C1 as stated fails: on an https page, a click on a [mailto:] link
    stores an entry whose url begins with neither [http://] nor
    [https://]. *)
Lemma C1_link_click_counterexample :
  let tab := {| tab_id := 1; tab_url := Some (js "https://example.com/") |} in
  let a := {| attr_href := Some (js "mailto:team@example.com");
              href := js "mailto:team@example.com";
              textContent := js "Mail us"; hover := false |} in
  let page := {| anchors := [a]; selection := None |} in
  let c := {| c_tab := tab; c_info := LinkClick (js "mailto:team@example.com");
              c_access := Some page |} in
  stored (captures [c] session_start)
  = [ {| title := js "Mail us"; url := js "mailto:team@example.com" |} ]
  ∧ ¬ begins_with "http://" (js "mailto:team@example.com")
  ∧ ¬ begins_with "https://" (js "mailto:team@example.com").
Proof.
  intros tab a page c. split; [|split].
  - unfold captures. simpl foldl. unfold capture, exec.
    rewrite handleLinkCapture_run. reflexivity.
  - intros [t Ht]. discriminate Ht.
  - intros [t Ht]. discriminate Ht.
Qed.

(** The same holds for the anchor under the pointer when the shortcut is
    pressed. *)
Example hovered_link_any_scheme :
  let tab := {| tab_id := 1; tab_url := Some (js "https://example.com/") |} in
  let a := {| attr_href := Some (js "ftp://files.example.com/a.txt");
              href := js "ftp://files.example.com/a.txt";
              textContent := js "a.txt"; hover := true |} in
  let page := {| anchors := [a]; selection := None |} in
  stored (exec (handleLinkCapture tab ShortcutTrigger (Some page))
            session_start)
  = [ {| title := js "a.txt"; url := js "ftp://files.example.com/a.txt" |} ].
Proof.
  intros tab a page. unfold exec. rewrite handleLinkCapture_run. reflexivity.
Qed.

(** * Further properties *)

(** ** The extractor on each kind of trigger *)

Lemma firstText_blank (links : list Anchor) :
  Forall (λ a, blank (textContent a)) links → firstText links = None.
Proof.
  induction 1 as [|a links Ha _ IH]; [done|]. simpl.
  apply trim_blank in Ha. by rewrite Ha.
Qed.

Lemma firstText_app_blank (l1 l2 : list Anchor) :
  Forall (λ a, blank (textContent a)) l1 →
  firstText (l1 ++ l2) = firstText l2.
Proof.
  induction 1 as [|a l1 Ha _ IH]; [done|]. simpl.
  apply trim_blank in Ha. by rewrite Ha.
Qed.

Lemma firstText_cons_text (a : Anchor) (links : list Anchor) :
  ¬ blank (textContent a) → firstText (a :: links) = Some (trim (textContent a)).
Proof.
  intros Ha. simpl. destruct (trim (textContent a)) eqn:Ht; [|done].
  destruct Ha. by apply trim_blank.
Qed.

Lemma querySelector_hover_first (page : Page) (pre post : list Anchor)
    (a : Anchor) :
  anchors page = pre ++ a :: post → hover a = true →
  Forall (λ b, hover b = false) pre →
  querySelector_hover page = Some a.
Proof.
  intros Hpage Ha Hpre. unfold querySelector_hover. rewrite Hpage.
  rewrite filter_app, filter_cons_True by done.
  replace (filter (λ b, hover b = true) pre) with (@nil Anchor); [done|].
  symmetry. clear Hpage. induction Hpre as [|b pre Hb _ IH]; [done|].
  rewrite filter_cons_False by congruence. exact IH.
Qed.

Lemma querySelector_hover_none (page : Page) :
  Forall (λ b, hover b = false) (anchors page) →
  querySelector_hover page = None.
Proof.
  unfold querySelector_hover. induction 1 as [|b l Hb _ IH]; [done|].
  rewrite filter_cons_False by congruence. exact IH.
Qed.

Section TriggerFacts.
Context `{Browser}.

(** X1.  On the shortcut, the first anchor under the pointer wins when its
    resolved href is not empty: the captured url is that href, the title
    is the anchor's trimmed text, or the domain fallback when the text is
    blank, and the page's selection is not looked at. *)
Theorem shortcut_takes_hovered_anchor (page : Page)
    (pre post : list Anchor) (a : Anchor) :
  anchors page = pre ++ a :: post →
  hover a = true →
  Forall (λ b, hover b = false) pre →
  href a ≠ [] →
  ∃ t, findLinkOnPage page ShortcutTrigger
       = Ret (Some {| title := t; url := href a |})
       ∧ (¬ blank (textContent a) → t = trim (textContent a))
       ∧ (blank (textContent a) → t = getDomain (href a)).
Proof.
  intros Hpage Ha Hpre Hhref.
  pose proof (querySelector_hover_first page pre post a Hpage Ha Hpre) as Hq.
  unfold findLinkOnPage, ShortcutTrigger. simpl. unfold fromShortcut.
  rewrite Hq. apply truthy_nonempty in Hhref. rewrite Hhref. cbv zeta.
  destruct (trim (textContent a)) as [|c t] eqn:Ht.
  - rewrite makeResult_blank by done. eexists. split; [reflexivity|].
    split; [|done]. intros Hnb. destruct Hnb. by apply trim_blank.
  - rewrite makeResult_text; rewrite <- Ht, ?trim_idem.
    + eexists. split; [reflexivity|]. split; [done|].
      intros Hb. apply trim_blank in Hb. congruence.
    + congruence.
Qed.

(** X2.  On the shortcut with no anchor under the pointer, or with a first
    hovered anchor whose href is empty, the page's selection decides: its
    trimmed text is captured, with the domain fallback as title, when it
    parses as a URL with protocol [http:] or [https:]; a missing, blank,
    unparsable or otherwise-schemed selection gives no result. *)
Theorem shortcut_falls_back_to_selection (page : Page) :
  (Forall (λ b, hover b = false) (anchors page)
   ∨ ∃ a, querySelector_hover page = Some a ∧ href a = []) →
  (∀ s u, selection page = Some s → URL_parse (trim s) = Some u →
          protocol u = js "http:" ∨ protocol u = js "https:" →
          findLinkOnPage page ShortcutTrigger
          = Ret (Some {| title := strip_www (hostname u); url := trim s |}))
  ∧ ((selection page = None
      ∨ ∃ s, selection page = Some s
             ∧ (URL_parse (trim s) = None
                ∨ ∃ u, URL_parse (trim s) = Some u
                       ∧ protocol u ≠ js "http:" ∧ protocol u ≠ js "https:")) →
     findLinkOnPage page ShortcutTrigger = Ret None).
Proof.
  intros Hhover.
  assert (Hsel : findLinkOnPage page ShortcutTrigger
                 = Ret (match selection page with
                        | Some s => tryUrlText (trim s) None
                        | None => None
                        end)).
  { unfold findLinkOnPage, ShortcutTrigger. simpl. unfold fromShortcut.
    assert (Hfrom : match whenTruthy (trim <$> selection page) with
                    | Some sel => tryUrlText sel None
                    | None => None
                    end
                    = match selection page with
                      | Some s => tryUrlText (trim s) None
                      | None => None
                      end).
    { destruct (selection page) as [s|]; [|done]. simpl.
      destruct (trim s) eqn:Ht; [|done]. simpl.
      unfold tryUrlText. by rewrite URL_parse_empty. }
    destruct Hhover as [Hnone | (a & Hq & Hempty)].
    - rewrite (querySelector_hover_none page Hnone). by rewrite Hfrom.
    - rewrite Hq, Hempty. simpl. by rewrite Hfrom. }
  rewrite Hsel. split.
  - intros s u -> Hp Hproto. apply is_http_spec in Hproto.
    rewrite (tryUrlText_http _ _ _ Hp Hproto).
    by rewrite (getDomain_parsed _ _ Hp).
  - intros [-> | (s & -> & Hbad)]; [done|].
    unfold tryUrlText. destruct Hbad as [-> | (u & -> & Hn1 & Hn2)]; [done|].
    destruct (is_http u) eqn:Hh; [|done].
    apply is_http_spec in Hh. tauto.
Qed.

(** X3.  On a menu click the link url, when there is one, decides alone: text
    selected at the same time is ignored.  A menu click that carries
    neither a link url nor selected text gives no result, whatever is
    under the pointer or selected on the page: hover and page selection
    are read on the shortcut only. *)
Theorem menu_click_reads_info_only (page : Page) (u : jsstring)
    (lu st : option jsstring) :
  (u ≠ [] →
   findLinkOnPage page (Some {| linkUrl := Some u; selectionText := st |})
   = findLinkOnPage page (LinkClick u))
  ∧ (lu = None ∨ lu = Some [] → st = None ∨ st = Some [] →
     findLinkOnPage page (Some {| linkUrl := lu; selectionText := st |})
     = Ret None).
Proof.
  split.
  - intros Hu. unfold findLinkOnPage, LinkClick. simpl.
    by destruct u.
  - intros Hlu Hst. unfold findLinkOnPage. simpl.
    apply whenTruthy_None in Hlu. apply whenTruthy_None in Hst.
    by rewrite Hlu, Hst.
Qed.

(** X4.  On a link click whose url the selector reads literally, the result
    carries the clicked url, and its title is the trimmed text of the
    first anchor, in document order, whose [href] attribute is written
    exactly as that url and whose text is not blank; when every anchor
    written so has blank text (or there is none) the title is the domain
    fallback. *)
Theorem link_click_title (page : Page) (u : jsstring) :
  u ≠ [] → forallb cssLiteral u = true →
  (∀ pre a post,
     anchors page = pre ++ a :: post →
     attr_href a = Some u → ¬ blank (textContent a) →
     Forall (λ b, attr_href b = Some u → blank (textContent b)) pre →
     findLinkOnPage page (LinkClick u)
     = Ret (Some {| title := trim (textContent a); url := u |}))
  ∧ (Forall (λ b, attr_href b = Some u → blank (textContent b))
       (anchors page) →
     findLinkOnPage page (LinkClick u)
     = Ret (Some {| title := getDomain u; url := u |})).
Proof.
  intros Hu Hlit. rewrite (findLinkOnPage_link page u Hu Hlit).
  assert (Hfilter : ∀ l,
            Forall (λ b, attr_href b = Some u → blank (textContent b)) l →
            Forall (λ b, blank (textContent b))
              (filter (λ b, attr_href b = Some u) l)).
  { intros l Hl. apply Forall_forall. intros b Hb.
    apply list_elem_of_filter in Hb as [Hattr Hin].
    rewrite Forall_forall in Hl. by apply Hl. }
  split.
  - intros pre a post Hpage Ha Htext Hpre. rewrite Hpage.
    rewrite filter_app, filter_cons_True by done.
    rewrite firstText_app_blank by by apply Hfilter.
    by rewrite firstText_cons_text.
  - intros Hall. by rewrite firstText_blank by by apply Hfilter.
Qed.

End TriggerFacts.

Lemma shortcut_takes_hovered_anchor_witness :
  let first := {| attr_href := Some (js "/a"); href := js "https://example.com/a";
                  textContent := js "A"; hover := false |} in
  let a := {| attr_href := Some (js "/docs"); href := js "https://example.com/docs";
              textContent := js "  Docs "; hover := true |} in
  let page := {| anchors := [first; a];
                 selection := Some (js "https://x.com") |} in
  ∃ t, findLinkOnPage page ShortcutTrigger
       = Ret (Some {| title := t; url := js "https://example.com/docs" |})
       ∧ (¬ blank (js "  Docs ") → t = js "Docs")
       ∧ (blank (js "  Docs ") → t = js "example.com").
Proof.
  intros first a page.
  assert (Hpre : Forall (λ b, hover b = false) [first])
    by (by repeat constructor).
  assert (Hhref : href a ≠ []) by done.
  exact (shortcut_takes_hovered_anchor page [first] [] a eq_refl eq_refl
           Hpre Hhref).
Defined.

Lemma shortcut_falls_back_to_selection_witness :
  let a := {| attr_href := Some (js "/docs"); href := js "https://example.com/docs";
              textContent := js "Docs"; hover := false |} in
  findLinkOnPage {| anchors := [a]; selection := Some (js " https://www.x.com/p ") |}
    ShortcutTrigger
  = Ret (Some {| title := js "x.com"; url := js "https://www.x.com/p" |})
  ∧ findLinkOnPage {| anchors := [a]; selection := Some (js "see you") |}
      ShortcutTrigger
    = Ret None.
Proof.
  intros a.
  assert (Hno : ∀ sel,
            Forall (λ b, hover b = false)
              (anchors {| anchors := [a]; selection := sel |})
            ∨ ∃ b, querySelector_hover {| anchors := [a]; selection := sel |}
                   = Some b ∧ href b = [])
    by (intros sel; left; by repeat constructor).
  pose proof (shortcut_falls_back_to_selection
                {| anchors := [a]; selection := Some (js " https://www.x.com/p ") |}
                (Hno _)) as [Hgood _].
  pose proof (shortcut_falls_back_to_selection
                {| anchors := [a]; selection := Some (js "see you") |}
                (Hno _)) as [_ Hbad].
  split.
  - exact (Hgood (js " https://www.x.com/p ")
             {| protocol := js "https:"; hostname := js "www.x.com" |}
             eq_refl eq_refl (or_intror eq_refl)).
  - apply Hbad. right. exists (js "see you"). split; [reflexivity | by left].
Defined.

Lemma menu_click_reads_info_only_witness :
  let a := {| attr_href := Some (js "https://example.com/docs");
              href := js "https://example.com/docs";
              textContent := js "Docs"; hover := true |} in
  let page := {| anchors := [a]; selection := Some (js "https://x.com") |} in
  findLinkOnPage page
    (Some {| linkUrl := Some (js "https://example.com/docs");
             selectionText := Some (js "https://y.com") |})
  = findLinkOnPage page (LinkClick (js "https://example.com/docs"))
  ∧ findLinkOnPage page (Some {| linkUrl := None; selectionText := Some [] |})
    = Ret None.
Proof.
  intros a page.
  pose proof (menu_click_reads_info_only page (js "https://example.com/docs")
                None (Some (js "https://y.com"))) as [Hlink _].
  pose proof (menu_click_reads_info_only page [] None (Some [])) as [_ Hnone].
  split.
  - by apply Hlink.
  - apply Hnone; [by left | by right].
Defined.

Lemma link_click_title_witness :
  let u := js "https://example.com/docs" in
  let icon := {| attr_href := Some u; href := u; textContent := js "  ";
                 hover := false |} in
  let other := {| attr_href := Some (js "https://example.com/"); href := js "https://example.com/";
                  textContent := js "Home"; hover := false |} in
  let a := {| attr_href := Some u; href := u; textContent := js " Docs ";
              hover := false |} in
  findLinkOnPage {| anchors := [icon; other; a]; selection := None |} (LinkClick u)
  = Ret (Some {| title := js "Docs"; url := u |})
  ∧ findLinkOnPage {| anchors := [icon; other]; selection := None |} (LinkClick u)
    = Ret (Some {| title := js "example.com"; url := u |}).
Proof.
  intros u icon other a.
  assert (Hu : u ≠ []) by done.
  assert (Hpre : Forall (λ b, attr_href b = Some u → blank (textContent b))
                   [icon; other]).
  { apply Forall_cons. split.
    - intros _. unfold blank. simpl. by repeat constructor.
    - apply Forall_cons. split; [|constructor].
      intros Heq. vm_compute in Heq. discriminate Heq. }
  pose proof (link_click_title {| anchors := [icon; other; a]; selection := None |}
                u Hu eq_refl) as [Hfirst _].
  pose proof (link_click_title {| anchors := [icon; other]; selection := None |}
                u Hu eq_refl) as [_ Hnone].
  split.
  - apply (Hfirst [icon; other] a []); [reflexivity | reflexivity | | exact Hpre].
    intros Hb. apply trim_blank in Hb. discriminate Hb.
  - exact (Hnone Hpre).
Defined.

(** ** What a capture does to the world *)

Lemma with_stored_other_key (links : list Link) (w : World) (k : jsstring) :
  k ≠ STORAGE_KEY → session (with_stored links w) !! k = session w !! k.
Proof. intros Hk. unfold with_stored. simpl. by rewrite lookup_insert_ne. Qed.

Lemma saveLink_other_key (x : Link) (w : World) (k : jsstring) :
  k ≠ STORAGE_KEY → session (exec (saveLink x) w) !! k = session w !! k.
Proof.
  intros Hk. unfold exec. rewrite saveLink_run. simpl.
  destruct (isDuplicate _ _); [done|]. by apply with_stored_other_key.
Qed.

Lemma matches_http_truthy (u : jsstring) :
  matches_http u = true → whenTruthy (Some u) = Some u.
Proof. by destruct u. Qed.

Section CaptureFacts.
Context `{Browser}.

(** The stored list after a capture attempt, from the list before and the
    link the attempt hands to [saveLink]. *)
Lemma capture_stored (c : Capture) (w : World) :
  stored (exec (capture c) w)
  = match handed_to_saveLink c with
    | Some e =>
        if isDuplicate (stored w) (url e) then stored w else stored w ++ [e]
    | None => stored w
    end.
Proof.
  unfold capture, exec, handed_to_saveLink. rewrite handleLinkCapture_run.
  cbn [snd]. destruct (whenTruthy (tab_url (c_tab c))) as [u|]; [|done].
  unfold after_injection.
  destruct (c_access c) as [page|]; [|by destruct (matches_http u)].
  destruct (matches_http u); [|done].
  destruct (findLinkOnPage page (c_info c)) as [[e|]|].
  - destruct (truthy (url e)); [|done].
    unfold exec. rewrite saveLink_run. cbn [snd].
    change (stored (log_event (ExecuteScript (tab_id (c_tab c))) w).2)
      with (stored w).
    destruct (isDuplicate (stored w) (url e)); [done|].
    apply stored_with_stored.
  - done.
  - by destruct page_throw_rejects.
Qed.

Lemma handleLinkCapture_other_key (tab : Tab) (info : option Info)
    (access : option Page) (w : World) (k : jsstring) :
  k ≠ STORAGE_KEY →
  session (exec (handleLinkCapture tab info access) w) !! k = session w !! k.
Proof.
  intros Hk. unfold exec. rewrite handleLinkCapture_run. simpl.
  destruct (whenTruthy (tab_url tab)) as [u|]; [|done].
  destruct (matches_http u); [|done].
  unfold after_injection. destruct access as [page|]; [|done].
  destruct (findLinkOnPage page info) as [[e|]|].
  - destruct (truthy (url e)); [|done]. by rewrite saveLink_other_key.
  - done.
  - by destruct page_throw_rejects.
Qed.

(** X5.  On a web page the attempt to inject is always recorded.  When the
    browser refuses the injection, or the injected function throws, the
    store is left alone and the coordinator returns normally; a refused
    injection is followed by one line on the error console.  When the
    injected function returns, with or without a link, nothing is written
    to the console. *)
Theorem injection_outcomes (tab : Tab) (info : option Info)
    (access : option Page) (w : World) (u : jsstring) :
  tab_url tab = Some u → matches_http u = true →
  let w' := exec (handleLinkCapture tab info access) w in
  (access = None →
     session w' = session w
     ∧ events w' = events w ++ [ExecuteScript (tab_id tab); ConsoleError])
  ∧ (∀ page, access = Some page → findLinkOnPage page info = Throw →
       session w' = session w
       ∧ events w'
         = events w ++ ExecuteScript (tab_id tab)
                       :: (if page_throw_rejects then [ConsoleError] else []))
  ∧ (∀ page r, access = Some page → findLinkOnPage page info = Ret r →
       events w' = events w ++ [ExecuteScript (tab_id tab)]).
Proof.
  intros Htab Hm w'. unfold w', exec. rewrite handleLinkCapture_run. simpl.
  rewrite Htab, (matches_http_truthy u Hm), Hm. unfold after_injection.
  split; [|split].
  - intros ->. simpl. split; [done|]. by rewrite <- app_assoc.
  - intros page -> ->. destruct page_throw_rejects; simpl; [|done].
    split; [done|]. by rewrite <- app_assoc.
  - intros page r -> ->. destruct r as [e|]; [|done].
    destruct (truthy (url e)); [|done]. by rewrite saveLink_events.
Qed.

(** X6.  Captures only ever add at the end: the list stored before a sequence
    of capture attempts is a prefix of the list stored after it, and each
    attempt adds at most one entry. *)
Theorem captures_extend_the_store (cs : list Capture) (w : World) :
  stored w `prefix_of` stored (captures cs w)
  ∧ (length (stored (captures cs w)) ≤ length (stored w) + length cs)%nat.
Proof.
  revert w. induction cs as [|c cs IH]; intros w.
  - split; [done | simpl; lia].
  - rewrite captures_cons. destruct (IH (exec (capture c) w)) as [Hpre Hlen].
    assert (Hstep : stored w `prefix_of` stored (exec (capture c) w)
                    ∧ (length (stored (exec (capture c) w))
                       ≤ S (length (stored w)))%nat).
    { rewrite capture_stored. destruct (handed_to_saveLink c) as [e|];
        [|split; [done | lia]].
      destruct (isDuplicate _ _); [split; [done | lia]|].
      split; [by apply prefix_app_r|]. rewrite length_app. simpl. lia. }
    destruct Hstep as [Hpre1 Hlen1]. split.
    + by etrans.
    + simpl. lia.
Qed.

(** X7.  Repeating a capture attempt on an unchanged page stores nothing new:
    the second attempt finds the url of its link already stored. *)
Theorem capture_twice_is_capture_once (c : Capture) (w : World) :
  stored (exec (capture c) (exec (capture c) w))
  = stored (exec (capture c) w).
Proof.
  rewrite (capture_stored c (exec (capture c) w)), (capture_stored c w).
  destruct (handed_to_saveLink c) as [e|]; [|done].
  destruct (isDuplicate (stored w) (url e)) eqn:Hd.
  - by rewrite Hd.
  - rewrite isDuplicate_app. simpl. unfold str_eqb.
    rewrite bool_decide_eq_true_2 by done. by rewrite orb_true_r.
Qed.

End CaptureFacts.

(** A refused injection, a click on a [javascript:] link whose url holds
    double quotes (the selector built from it is invalid, so the injected
    function throws), and a selection that is captured. *)
Lemma injection_outcomes_witness :
  let tab := {| tab_id := 4; tab_url := Some (js "https://example.com/") |} in
  let page := {| anchors := []; selection := None |} in
  let quoted := js "javascript:alert(" ++ [34%N] ++ js "hi" ++ [34%N] ++ js ")" in
  events (exec (handleLinkCapture tab ShortcutTrigger None) session_start)
  = [ExecuteScript 4; ConsoleError]
  ∧ session (exec (handleLinkCapture tab (LinkClick quoted) (Some page))
               session_start)
    = session session_start
  ∧ events (exec (handleLinkCapture tab (SelectionClick (js "https://x.com"))
                    (Some page)) session_start)
    = [ExecuteScript 4].
Proof.
  intros tab page quoted.
  pose proof (injection_outcomes tab ShortcutTrigger None session_start
                (js "https://example.com/") eq_refl eq_refl) as (Hnone & _).
  pose proof (injection_outcomes tab (LinkClick quoted)
                (Some page) session_start
                (js "https://example.com/") eq_refl eq_refl) as (_ & Hthrow & _).
  pose proof (injection_outcomes tab (SelectionClick (js "https://x.com"))
                (Some page) session_start
                (js "https://example.com/") eq_refl eq_refl) as (_ & _ & Hret).
  split; [|split].
  - by destruct (Hnone eq_refl) as [_ ->].
  - by destruct (Hthrow page eq_refl eq_refl) as [-> _].
  - by rewrite (Hret page _ eq_refl eq_refl).
Defined.

(** ** Store and panel *)

Lemma deleteLink_stored (index : Z) (w : World) :
  stored (exec (deleteLink index) w) = splice (stored w) index 1.
Proof. unfold exec. rewrite deleteLink_run. apply stored_with_stored. Qed.

Lemma deleteLink_other_key (index : Z) (w : World) (k : jsstring) :
  k ≠ STORAGE_KEY → session (exec (deleteLink index) w) !! k = session w !! k.
Proof.
  intros Hk. unfold exec. rewrite deleteLink_run.
  by apply with_stored_other_key.
Qed.

Lemma deleteAllBtn_click_run (confirm : jsstring → bool) (w : World) :
  deleteAllBtn_click confirm w
  = (Ret (),
     match stored w with
     | [] => w
     | _ :: _ =>
         if confirm (delete_all_prompt (length (stored w)))
         then with_stored [] w else w
     end).
Proof.
  unfold deleteAllBtn_click, mbind, Eff_bind. rewrite getStoredLinks_run.
  destruct (stored w) as [|x l]; [done|]. simpl.
  by destruct (confirm _).
Qed.

(** X8.  Saving a link whose url is new and then deleting the last position
    gives the stored list back. *)
Theorem save_then_delete_last (x : Link) (w : World) :
  (∀ e, e ∈ stored w → url e ≠ url x) →
  stored (exec (deleteLink (Z.of_nat (length (stored w))))
            (exec (saveLink x) w))
  = stored w.
Proof.
  intros Hnew. apply isDuplicate_false in Hnew.
  rewrite deleteLink_stored, splice_one.
  unfold exec at 1 2. rewrite saveLink_run. simpl. rewrite Hnew.
  rewrite stored_with_stored.
  destruct (Z.ltb_spec (Z.of_nat (length (stored w))) 0) as [?|_]; [lia|].
  rewrite Nat2Z.id, delete_middle. apply app_nil_r.
Qed.

Lemma save_then_delete_last_witness :
  let a := {| title := js "A"; url := js "https://x.com" |} in
  let b := {| title := js "B"; url := js "https://y.com" |} in
  let w := with_stored [a] session_start in
  stored (exec (deleteLink (Z.of_nat (length (stored w)))) (exec (saveLink b) w))
  = stored w.
Proof.
  intros a b w. apply (save_then_delete_last b w).
  intros e He. unfold w in He. rewrite stored_with_stored in He.
  apply list_elem_of_singleton in He as ->. discriminate.
Defined.

(** X9.  The delete-all button.  With nothing stored it does nothing and asks
    nothing.  With [n] links stored it asks ["Delete all n links?"]: on a
    refusal the world is unchanged; on a confirmation the stored list
    becomes empty, other keys and the effects so far are untouched, and a
    panel opened afterwards shows the empty state and no item. *)
Theorem delete_all_button (confirm : jsstring → bool) (w : World) :
  let w' := exec (deleteAllBtn_click confirm) w in
  (stored w = [] → w' = w)
  ∧ (confirm (delete_all_prompt (length (stored w))) = false → w' = w)
  ∧ (stored w ≠ [] → confirm (delete_all_prompt (length (stored w))) = true →
     stored w' = []
     ∧ events w' = events w
     ∧ (∀ k, k ≠ STORAGE_KEY → session w' !! k = session w !! k)
     ∧ ∀ panel,
         DOMContentLoaded panel w'
         = (Ret {| linksList := []; emptyState_display := js "block" |}, w')).
Proof.
  intros w'. unfold w', exec. rewrite deleteAllBtn_click_run. simpl.
  split; [|split].
  - by intros ->.
  - intros ->. by destruct (stored w).
  - intros Hne ->. destruct (stored w) as [|x l] eqn:Hst; [done|].
    split; [apply stored_with_stored|]. split; [done|]. split.
    + intros k Hk. by apply with_stored_other_key.
    + intros panel. unfold DOMContentLoaded, mbind, Eff_bind.
      rewrite getStoredLinks_run, stored_with_stored. done.
Qed.

Lemma delete_all_button_witness :
  let a := {| title := js "A"; url := js "https://x.com" |} in
  let b := {| title := js "B"; url := js "https://y.com" |} in
  let w := with_stored [a; b] session_start in
  delete_all_prompt (length (stored w)) = js "Delete all 2 links?"
  ∧ stored (exec (deleteAllBtn_click (λ _, true)) w) = []
  ∧ exec (deleteAllBtn_click (λ _, false)) w = w
  ∧ exec (deleteAllBtn_click (λ _, true)) session_start = session_start.
Proof.
  intros a b w.
  pose proof (delete_all_button (λ _, true) w) as (_ & _ & Hyes).
  pose proof (delete_all_button (λ _, false) w) as (_ & Hno & _).
  pose proof (delete_all_button (λ _, true) session_start) as (Hempty & _).
  split; [reflexivity|]. split; [|split].
  - apply Hyes; [|reflexivity]. unfold w. by rewrite stored_with_stored.
  - by apply Hno.
  - by apply Hempty.
Defined.

(** X10.  [renderLinks] rebuilds the list from nothing: there is one item per
    link, in list order; the item at position [k] shows the title of link
    [k] as a link to its url, has its Markdown box unchecked, and its
    delete button carries the position [k].  The empty state is shown
    exactly when there is no link, and what the panel showed before does
    not matter. *)
Theorem renderLinks_items (links : list Link) (panel : Panel) :
  length (linksList (renderLinks links panel)) = length links
  ∧ (∀ k link, links !! k = Some link →
       linksList (renderLinks links panel) !! k
       = Some {| anchor_href := url link;
                 anchor_target := js "_blank";
                 anchor_rel := js "noopener noreferrer";
                 anchor_textContent := title link;
                 markdownCheckbox_checked := false;
                 copyBtn_link := link;
                 deleteBtn_index := Z.of_nat k |})
  ∧ (emptyState_display (renderLinks links panel) = js "block" ↔ links = [])
  ∧ (emptyState_display (renderLinks links panel) = js "none" ↔ links ≠ [])
  ∧ (∀ panel', renderLinks links panel' = renderLinks links panel).
Proof.
  destruct links as [|x links]; [repeat split; done|].
  unfold renderLinks. cbn [length Nat.eqb linksList emptyState_display app].
  split; [by rewrite length_imap|]. split; [|repeat split; done].
  intros k link Hk. rewrite list_lookup_imap, Hk. done.
Qed.

(** X11.  The delete button of an item removes by position: whatever is stored
    when it is pressed, the entry at the item's position goes.  Pressed
    while the store still holds the rendered list, free of repeated urls,
    that entry is the link the item shows: its url is gone from the store
    and every other link stays. *)
Theorem delete_button_removes_by_position (links : list Link)
    (panel : Panel) (k : nat) (item : LinkItem) (w : World) :
  linksList (renderLinks links panel) !! k = Some item →
  stored (exec (deleteBtn_click item) w) = delete k (stored w)
  ∧ (stored w = links → NoDup (url <$> links) →
     links !! k = Some (copyBtn_link item)
     ∧ (anchor_href item ∉ url <$> stored (exec (deleteBtn_click item) w))
     ∧ (∀ e, e ∈ links → url e ≠ anchor_href item →
             e ∈ stored (exec (deleteBtn_click item) w))).
Proof.
  intros Hitem.
  assert (Hlink : links !! k = Some (copyBtn_link item)
                  ∧ deleteBtn_index item = Z.of_nat k
                  ∧ anchor_href item = url (copyBtn_link item)).
  { destruct links as [|x links]; [done|].
    unfold renderLinks in Hitem.
    cbn [length Nat.eqb linksList emptyState_display app] in Hitem.
    rewrite list_lookup_imap in Hitem.
    destruct ((x :: links) !! k) as [link|]; [|done].
    by injection Hitem as <-. }
  destruct Hlink as (Hk & Hidx & Hhref).
  assert (Hdel : stored (exec (deleteBtn_click item) w) = delete k (stored w)).
  { unfold deleteBtn_click. rewrite deleteLink_stored, splice_one, Hidx.
    destruct (Z.ltb_spec (Z.of_nat k) 0) as [?|_]; [lia|].
    by rewrite Nat2Z.id. }
  split; [exact Hdel|]. intros Hst Hnd. split; [exact Hk|].
  rewrite Hdel, Hst, Hhref.
  pose proof (delete_Permutation links k _ Hk) as Hperm.
  assert (Hnd' : NoDup (url (copyBtn_link item) :: (url <$> delete k links))).
  { rewrite <- fmap_cons. by rewrite <- Hperm. }
  apply NoDup_cons in Hnd' as [Hnotin _]. split; [exact Hnotin|].
  intros e He Hne. rewrite Hperm in He.
  apply elem_of_cons in He as [->|He]; [done | exact He].
Qed.

Lemma delete_button_removes_by_position_witness :
  let a := {| title := js "A"; url := js "https://x.com" |} in
  let b := {| title := js "B"; url := js "https://y.com" |} in
  let panel := {| linksList := []; emptyState_display := js "block" |} in
  let w := with_stored [a; b] session_start in
  stored (exec (deleteBtn_click (createLinkItem b 1)) w) = [a].
Proof.
  intros a b panel w.
  pose proof (delete_button_removes_by_position [a; b] panel 1
                (createLinkItem b 1) w eq_refl) as [Hdel _].
  rewrite Hdel. unfold w. by rewrite stored_with_stored.
Defined.

(** ** Sequences of user actions *)

Lemma stored_session (w w' : World) :
  session w' = session w → stored w' = stored w.
Proof. unfold stored. by intros ->. Qed.

Section CopyFacts.
Context `{Clipboard}.

(** [copyToClipboard] never throws: the text goes to the clipboard, or the
    failure goes to the console. *)
Lemma copyToClipboard_run (text : jsstring) (w : World) :
  copyToClipboard text w
  = (Ret (),
     if writeText_resolves w text
     then exec (log_event (ClipboardWrite text)) w
     else exec (log_event ConsoleError) w).
Proof.
  unfold copyToClipboard, try_catch, clipboard_writeText.
  by destruct (writeText_resolves w text).
Qed.

Lemma copyToClipboard_session (text : jsstring) (w : World) :
  session (exec (copyToClipboard text) w) = session w.
Proof.
  unfold exec. rewrite copyToClipboard_run. cbn [snd].
  by destruct (writeText_resolves w text).
Qed.

Lemma copyPlainBtn_click_run (checked : bool) (w : World) :
  copyPlainBtn_click checked w
  = (Ret (),
     match stored w with
     | [] => w
     | _ :: _ => exec (copyToClipboard (formatAllPlain (stored w) checked)) w
     end).
Proof.
  unfold copyPlainBtn_click, mbind, Eff_bind. rewrite getStoredLinks_run.
  destruct (stored w); [done|]. simpl.
  unfold exec. by rewrite copyToClipboard_run.
Qed.

Lemma copyBulletedBtn_click_run (checked : bool) (w : World) :
  copyBulletedBtn_click checked w
  = (Ret (),
     match stored w with
     | [] => w
     | _ :: _ => exec (copyToClipboard (formatAllBulleted (stored w) checked)) w
     end).
Proof.
  unfold copyBulletedBtn_click, mbind, Eff_bind. rewrite getStoredLinks_run.
  destruct (stored w); [done|]. simpl.
  unfold exec. by rewrite copyToClipboard_run.
Qed.

Lemma copyPlainBtn_click_session (checked : bool) (w : World) :
  session (exec (copyPlainBtn_click checked) w) = session w.
Proof.
  unfold exec at 1. rewrite copyPlainBtn_click_run. cbn [snd].
  destruct (stored w); [done|]. apply copyToClipboard_session.
Qed.

Lemma copyBulletedBtn_click_session (checked : bool) (w : World) :
  session (exec (copyBulletedBtn_click checked) w) = session w.
Proof.
  unfold exec at 1. rewrite copyBulletedBtn_click_run. cbn [snd].
  destruct (stored w); [done|]. apply copyToClipboard_session.
Qed.

End CopyFacts.

Lemma clipboard_writes_log (e : Event) (w : World) :
  clipboard_writes (exec (log_event e) w)
  = clipboard_writes w
    ++ match e with ClipboardWrite text => [text] | _ => [] end.
Proof.
  unfold clipboard_writes, exec, log_event. simpl. rewrite omap_app.
  by destruct e.
Qed.

Lemma clipboard_writes_events (w w' : World) :
  events w' = events w → clipboard_writes w' = clipboard_writes w.
Proof. unfold clipboard_writes. by intros ->. Qed.

Lemma NoDup_url_snoc (links : list Link) (e : Link) :
  NoDup (url <$> links) → isDuplicate links (url e) = false →
  NoDup (url <$> links ++ [e]).
Proof.
  intros Hnd Hd. rewrite fmap_app. apply NoDup_app.
  split; [done|]. split; [|apply NoDup_singleton].
  intros u Hu Hx. apply list_elem_of_singleton in Hx as ->.
  apply list_elem_of_fmap in Hu as (e' & Hue & He').
  rewrite isDuplicate_false in Hd. by apply (Hd e').
Qed.

Section ActionFacts.
Context `{Browser} `{Clipboard}.

Lemma capture_events (c : Capture) (w : World) :
  clipboard_writes (exec (capture c) w) = clipboard_writes w.
Proof.
  unfold capture, exec. rewrite handleLinkCapture_run. cbn [snd].
  destruct (whenTruthy (tab_url (c_tab c))) as [u|]; [|done].
  destruct (matches_http u); [|done].
  unfold after_injection.
  assert (Hlog : ∀ w0, clipboard_writes
                         (exec (log_event (ExecuteScript (tab_id (c_tab c)))) w0)
                       = clipboard_writes w0).
  { intros w0. rewrite clipboard_writes_log. apply app_nil_r. }
  assert (Herr : ∀ w0, clipboard_writes (exec (log_event ConsoleError) w0)
                       = clipboard_writes w0).
  { intros w0. rewrite clipboard_writes_log. apply app_nil_r. }
  destruct (c_access c) as [page|]; [|by rewrite Herr, Hlog].
  destruct (findLinkOnPage page (c_info c)) as [[e|]|].
  - destruct (truthy (url e)); [|apply Hlog].
    etrans; [apply clipboard_writes_events, saveLink_events | apply Hlog].
  - apply Hlog.
  - destruct page_throw_rejects; [by rewrite Herr, Hlog | apply Hlog].
Qed.

(** An action that starts a capture attempt is that attempt. *)
Lemma act_capture (a : Action) (c : Capture) (w : World) :
  capture_of a = Some c → exec (act a) w = exec (capture c) w.
Proof.
  destruct a as [id info tab access|cmd tab access| | | | |]; simpl; try done.
  - unfold contextMenus_onClicked.
    destruct (str_eqb id (js "save-to-linkstash")); [|done]. by intros [= <-].
  - unfold commands_onCommand.
    destruct (str_eqb cmd (js "save-link")); [|done]. by intros [= <-].
Qed.

(** An action that starts none leaves in the store a sublist of what was
    there, in the same order. *)
Lemma act_no_capture (a : Action) (w : World) :
  capture_of a = None → stored (exec (act a) w) `sublist_of` stored w.
Proof.
  destruct a as [id info tab access|cmd tab access|item|item|m|m|confirm];
    simpl.
  - unfold contextMenus_onClicked.
    by destruct (str_eqb id (js "save-to-linkstash")).
  - unfold commands_onCommand. by destruct (str_eqb cmd (js "save-link")).
  - intros _. unfold copyBtn_click.
    by rewrite (stored_session _ _ (copyToClipboard_session _ w)).
  - intros _. unfold deleteBtn_click. rewrite deleteLink_stored, splice_one.
    apply sublist_delete.
  - intros _. by rewrite (stored_session _ _ (copyPlainBtn_click_session m w)).
  - intros _.
    by rewrite (stored_session _ _ (copyBulletedBtn_click_session m w)).
  - intros _. unfold exec. rewrite deleteAllBtn_click_run. cbn [snd].
    destruct (stored w) as [|x l] eqn:Hst; [by rewrite Hst|].
    destruct (confirm _); [|by rewrite Hst].
    rewrite stored_with_stored. apply sublist_nil_l.
Qed.

Lemma run_cons (a : Action) (actions : list Action) (w : World) :
  run (a :: actions) w = run actions (exec (act a) w).
Proof. reflexivity. Qed.

Lemma act_NoDup (a : Action) (w : World) :
  NoDup (url <$> stored w) → NoDup (url <$> stored (exec (act a) w)).
Proof.
  intros Hnd. destruct (capture_of a) as [c|] eqn:Hc.
  - rewrite (act_capture a c w Hc), capture_stored.
    destruct (handed_to_saveLink c) as [e|]; [|done].
    destruct (isDuplicate (stored w) (url e)) eqn:Hd; [done|].
    by apply NoDup_url_snoc.
  - eapply sublist_NoDup; [exact Hnd|].
    apply fmap_sublist. by apply act_no_capture.
Qed.

Lemma run_provenance (actions : list Action) (w : World) (e : Link) :
  e ∈ stored (run actions w) →
  e ∈ stored w
  ∨ ∃ a c, a ∈ actions ∧ capture_of a = Some c ∧ captured_by c e.
Proof.
  revert w. induction actions as [|a actions IH]; intros w He; [by left|].
  rewrite run_cons in He. apply IH in He as [He|(a' & c' & Ha' & Hc' & Hcap)].
  - destruct (capture_of a) as [c|] eqn:Hc.
    + rewrite (act_capture a c w Hc) in He.
      destruct (capture_step c w) as [Hsame|(e' & Happ & Hcap)].
      * left. by rewrite <- Hsame.
      * rewrite Happ in He. apply elem_of_app in He as [He|He]; [by left|].
        apply list_elem_of_singleton in He as ->.
        right. exists a, c. split; [left | done].
    + left. eapply elem_of_sublist; [exact He|]. by apply act_no_capture.
  - right. exists a', c'. split; [by right | done].
Qed.

(** X12.  Whatever the user does, in whatever order (captures from the menu or
    the shortcut, copies, deletions by item, delete-all), the store never
    holds two entries with one url, and every entry in it was put there
    by a capture attempt among the actions: on a tab whose url begins
    with [http://] or [https://], with a non-empty url taken from the
    clicked link, the hovered anchor or a selection that parses as
    http(s). *)
Theorem store_invariant (actions : list Action) :
  NoDup (url <$> stored (run actions session_start))
  ∧ (∀ e, e ∈ stored (run actions session_start) →
          ∃ a c, a ∈ actions ∧ capture_of a = Some c ∧ captured_by c e).
Proof.
  split.
  - assert (Hgen : ∀ w, NoDup (url <$> stored w) →
                        NoDup (url <$> stored (run actions w))).
    { induction actions as [|a actions IH]; intros w Hnd; [done|].
      rewrite run_cons. apply IH. by apply act_NoDup. }
    apply Hgen. constructor.
  - intros e He. apply run_provenance in He as [He|He]; [|done].
    by apply elem_of_nil in He.
Qed.

Lemma act_other_key (a : Action) (w : World) (k : jsstring) :
  k ≠ STORAGE_KEY → session (exec (act a) w) !! k = session w !! k.
Proof.
  intros Hk.
  destruct a as [id info tab access|cmd tab access|item|item|m|m|confirm];
    simpl.
  - unfold contextMenus_onClicked.
    destruct (str_eqb id (js "save-to-linkstash")); [|done].
    by apply handleLinkCapture_other_key.
  - unfold commands_onCommand.
    destruct (str_eqb cmd (js "save-link")); [|done].
    by apply handleLinkCapture_other_key.
  - unfold copyBtn_click. by rewrite copyToClipboard_session.
  - by apply deleteLink_other_key.
  - by rewrite copyPlainBtn_click_session.
  - by rewrite copyBulletedBtn_click_session.
  - unfold exec. rewrite deleteAllBtn_click_run. simpl.
    destruct (stored w); [done|]. destruct (confirm _); [|done].
    by apply with_stored_other_key.
Qed.

(** X13.  The extension owns one key of the session storage: no sequence of
    actions reads into or changes what is stored under any other key. *)
Theorem other_keys_untouched (actions : list Action) (w : World)
    (k : jsstring) :
  k ≠ STORAGE_KEY → session (run actions w) !! k = session w !! k.
Proof.
  intros Hk. revert w. induction actions as [|a actions IH]; intros w; [done|].
  rewrite run_cons, IH. by apply act_other_key.
Qed.

Lemma copyToClipboard_attempt (text : jsstring) (w : World) :
  copy_attempt text w (exec (copyToClipboard text) w).
Proof.
  unfold copy_attempt, exec. rewrite copyToClipboard_run. cbn [snd].
  by destruct (writeText_resolves w text).
Qed.

(** X14.  Copying and storing do not mix.  A copy button leaves the session
    storage as it is and attempts one write to the clipboard: of the
    item's link in the format its box selects, or of the whole stored
    list in the bulk format (no attempt when the list is empty).  When
    the write resolves that text, and nothing else, is placed on the
    clipboard; when it rejects nothing is placed and one line goes to the
    error console.  No other action writes to the clipboard. *)
Theorem clipboard_only_from_copy_buttons (a : Action) (w : World) :
  match a with
  | ClickCopy item =>
      copy_attempt
        (formatLink (copyBtn_link item) (markdownCheckbox_checked item))
        w (exec (act a) w)
  | ClickCopyPlain checked =>
      match stored w with
      | [] => exec (act a) w = w
      | _ :: _ =>
          copy_attempt (formatAllPlain (stored w) checked) w (exec (act a) w)
      end
  | ClickCopyBulleted checked =>
      match stored w with
      | [] => exec (act a) w = w
      | _ :: _ =>
          copy_attempt (formatAllBulleted (stored w) checked) w
            (exec (act a) w)
      end
  | _ => clipboard_writes (exec (act a) w) = clipboard_writes w
  end.
Proof.
  destruct a as [id info tab access|cmd tab access|item|item|m|m|confirm];
    simpl.
  - unfold contextMenus_onClicked.
    destruct (str_eqb id (js "save-to-linkstash")); [|done].
    apply (capture_events {| c_tab := tab; c_info := Some info;
                             c_access := access |}).
  - unfold commands_onCommand.
    destruct (str_eqb cmd (js "save-link")); [|done].
    apply (capture_events {| c_tab := tab; c_info := None;
                             c_access := access |}).
  - unfold copyBtn_click. apply copyToClipboard_attempt.
  - done.
  - unfold exec at 1 2. rewrite copyPlainBtn_click_run. cbn [snd].
    destruct (stored w); [done|]. apply copyToClipboard_attempt.
  - unfold exec at 1 2. rewrite copyBulletedBtn_click_run. cbn [snd].
    destruct (stored w); [done|]. apply copyToClipboard_attempt.
  - unfold exec. rewrite deleteAllBtn_click_run. cbn [snd].
    destruct (stored w); [done|]. by destruct (confirm _).
Qed.

End ActionFacts.

(** The copy button of an item, on a clipboard that takes the text and on
    one that refuses it. *)
Lemma clipboard_only_from_copy_buttons_witness :
  let item := createLinkItem {| title := js "A"; url := js "https://x.com" |} 0 in
  events (exec (act (ClickCopy item)) session_start)
  = [ClipboardWrite (js "https://x.com")]
  ∧ events (exec (@act example_browser refusing_clipboard (ClickCopy item))
              session_start)
    = [ConsoleError].
Proof.
  intros item.
  pose proof (@clipboard_only_from_copy_buttons example_browser
                example_clipboard (ClickCopy item) session_start) as [_ Hyes].
  pose proof (@clipboard_only_from_copy_buttons example_browser
                refusing_clipboard (ClickCopy item) session_start) as [_ Hno].
  split; [exact Hyes | exact Hno].
Defined.

Lemma other_keys_untouched_witness :
  let tab := {| tab_id := 1; tab_url := Some (js "https://example.com/") |} in
  let w := {| session := {[ js "other" := [ {| title := js "T"; url := js "u" |} ] ]};
              events := [] |} in
  let actions :=
    [ MenuClick (js "save-to-linkstash")
        {| linkUrl := None; selectionText := Some (js "https://x.com") |}
        tab (Some {| anchors := []; selection := None |});
      ClickDeleteAll (λ _, true) ] in
  session (run actions w) !! js "other" = session w !! js "other".
Proof.
  intros tab w actions. apply (other_keys_untouched actions w (js "other")).
  discriminate.
Defined.

(** ** Bulk formats, line by line *)

(** X15.  When no formatted link holds a line feed, the lines of the plain
    format are the formatted links, in list order, and the lines of the
    bulleted format are the same lines with ["- "] in front. *)
Theorem bulk_formats_line_by_line (links : list Link) (m : bool) :
  links ≠ [] →
  Forall (λ link, 10%N ∉ formatLink link m) links →
  split_on 10%N (formatAllPlain links m)
  = (λ link, formatLink link m) <$> links
  ∧ split_on 10%N (formatAllBulleted links m)
    = (λ line, js "- " ++ line) <$> split_on 10%N (formatAllPlain links m).
Proof.
  intros Hne Hall.
  rewrite (formatAllPlain_lines links m Hne Hall),
    (formatAllBulleted_lines links m Hne Hall).
  split; [done|]. by rewrite <- list_fmap_compose.
Qed.

Lemma bulk_formats_line_by_line_witness :
  let links := [ {| title := js "A"; url := js "https://x.com" |};
                 {| title := js "B"; url := js "https://y.com" |} ] in
  split_on 10%N (formatAllPlain links true)
  = [ js "[A](https://x.com)"; js "[B](https://y.com)" ]
  ∧ split_on 10%N (formatAllBulleted links true)
    = (λ line, js "- " ++ line) <$> split_on 10%N (formatAllPlain links true).
Proof.
  intros links. apply (bulk_formats_line_by_line links true); [done|].
  repeat constructor; vm_compute; intros Hin;
    repeat (apply elem_of_cons in Hin as [Hin|Hin]; [discriminate Hin|]);
    by apply elem_of_nil in Hin.
Defined.

(** ** Two captures at once *)

Lemma saveLink_resumes (x : Link) :
  saveLink x = (links ← getStoredLinks; saveLink_resume links x).
Proof. reflexivity. Qed.

Lemma saveLink_resume_run (links : list Link) (x : Link) (w : World) :
  saveLink_resume links x w
  = (Ret (),
     if isDuplicate links (url x) then w else with_stored (links ++ [x]) w).
Proof.
  unfold saveLink_resume. destruct (isDuplicate links (url x)); [done|].
  by destruct x.
Qed.

(** X16.  The read-modify-write of [saveLink] is not atomic.  When two saves of
    new, different urls have both read the list before either writes,
    the second write replaces the first: only the second link is added,
    where two saves in turn add both.  The list written is still free of
    repeated urls. *)
Theorem interleaved_saves_lose_an_update (x y : Link) (w : World) :
  url x ≠ url y →
  (∀ e, e ∈ stored w → url e ≠ url x ∧ url e ≠ url y) →
  stored (exec (saveLink_interleaved x y) w) = stored w ++ [y]
  ∧ stored (exec (saveLink x;; saveLink y) w) = stored w ++ [x; y]
  ∧ (NoDup (url <$> stored w) →
     NoDup (url <$> stored (exec (saveLink_interleaved x y) w))).
Proof.
  intros Hxy Hnew.
  assert (Hx : isDuplicate (stored w) (url x) = false).
  { apply isDuplicate_false. intros e He. by destruct (Hnew e He). }
  assert (Hy : isDuplicate (stored w) (url y) = false).
  { apply isDuplicate_false. intros e He. by destruct (Hnew e He). }
  assert (Hinter : stored (exec (saveLink_interleaved x y) w) = stored w ++ [y]).
  { unfold exec, saveLink_interleaved, mbind, Eff_bind.
    rewrite !getStoredLinks_run, !saveLink_resume_run, Hx, Hy.
    apply stored_with_stored. }
  split; [exact Hinter|]. split.
  - unfold exec, mbind, Eff_bind. rewrite !saveLink_run, Hx.
    rewrite stored_with_stored, isDuplicate_app, Hy. simpl.
    unfold str_eqb. rewrite bool_decide_eq_false_2 by done. simpl.
    rewrite stored_with_stored. by rewrite <- app_assoc.
  - intros Hnd. rewrite Hinter. by apply NoDup_url_snoc.
Qed.

Lemma interleaved_saves_lose_an_update_witness :
  let x := {| title := js "X"; url := js "https://x.com" |} in
  let y := {| title := js "Y"; url := js "https://y.com" |} in
  stored (exec (saveLink_interleaved x y) session_start) = [y]
  ∧ stored (exec (saveLink x;; saveLink y) session_start) = [x; y].
Proof.
  intros x y.
  assert (Hxy : url x ≠ url y) by discriminate.
  assert (Hnew : ∀ e, e ∈ stored session_start →
                      url e ≠ url x ∧ url e ≠ url y).
  { intros e He. by apply elem_of_nil in He. }
  pose proof (interleaved_saves_lose_an_update x y session_start Hxy Hnew)
    as (Hlost & Hboth & _).
  split; [exact Hlost | exact Hboth].
Defined.

(** ** The empty-url guard *)

Section GuardFacts.
Context `{Browser}.

(** X17.  The extractor never returns a link with an empty url, so every link
    it returns reaches [saveLink]: after a capture attempt on a web page
    whose extraction returned a link, that link's url is in the store. *)
Theorem extracted_link_is_stored (tab : Tab) (info : option Info)
    (page : Page) (w : World) (u : jsstring) (e : Link) :
  tab_url tab = Some u → matches_http u = true →
  findLinkOnPage page info = Ret (Some e) →
  url e ≠ []
  ∧ url e ∈ url <$> stored (exec (handleLinkCapture tab info (Some page)) w).
Proof.
  intros Htab Hm Hfind.
  pose proof (findLinkOnPage_extracted page info e Hfind) as [Hne _].
  split; [exact Hne|].
  pose proof (capture_stored
                {| c_tab := tab; c_info := info; c_access := Some page |} w)
    as Hst.
  unfold capture, handed_to_saveLink in Hst. simpl in Hst.
  rewrite Htab, (matches_http_truthy u Hm), Hm, Hfind in Hst.
  apply truthy_nonempty in Hne. rewrite Hne in Hst. rewrite Hst.
  destruct (isDuplicate (stored w) (url e)) eqn:Hd.
  - apply isDuplicate_spec in Hd as (e' & He' & <-).
    by apply list_elem_of_fmap_2.
  - rewrite fmap_app. apply elem_of_app. right.
    by apply list_elem_of_singleton.
Qed.

End GuardFacts.

Lemma extracted_link_is_stored_witness :
  let tab := {| tab_id := 1; tab_url := Some (js "http://example.com/") |} in
  let page := {| anchors := []; selection := Some (js "https://x.com/a") |} in
  js "https://x.com/a"
  ∈ url <$> stored (exec (handleLinkCapture tab ShortcutTrigger (Some page))
                      session_start).
Proof.
  intros tab page.
  exact (proj2 (extracted_link_is_stored tab ShortcutTrigger page session_start
                  (js "http://example.com/")
                  {| title := js "x.com"; url := js "https://x.com/a" |}
                  eq_refl eq_refl eq_refl)).
Defined.
